(** * MerchantAI: the generation clients, the session state and the
      compositing routine

    A shallow embedding of
      - [services/geminiService] : [fileToGenerativePart],
        [generateProductContent], [generateLifestyleImage];
      - [App]                    : the session state and its handlers
        [handleFileSelect], [handleTextChange], [handleGenerate],
        [handleGenerateImage], [resetApp];
      - [components/FileUpload]  : the handlers of the drop zone;
      - [components/ResultCard]  : [handleDownload], the canvas compositing,
        and the controls around it.

    Conventions.
      - A JavaScript string is the list of its UTF-16 code units ([jsstring]).
      - A JavaScript number of the canvas arithmetic is an extended rational
        ([number]): finite values are exact rationals, and [NaN], [Infinity],
        [-Infinity] follow the IEEE-754 rules for special values.  Rounding
        of finite results and the sign of zero are not represented there.
        The numbers of a parsed JSON text are binary64 values ([double]),
        rounded and printed as ECMA-262 says.
      - Asynchronous functions are run to completion: a computation yields
        its outcome (a value or a thrown value) and the trace of the
        observable events it performed, in order.
      - What the platform provides and the sources do not contain (the remote
        service, the file reader, the image loader, text measurement) is an
        explicit parameter of the computation. *)

From Stdlib Require Import List String Ascii Bool NArith ZArith QArith Lia Lqa.
From Stdlib Require Import DecimalString.
Import ListNotations.

Set Implicit Arguments.
Close Scope Q_scope.
Set Warnings "-register-all".

(* ================================================================== *)
(** * JavaScript values used by the program *)
(* ================================================================== *)

Module JS.

(** ** Strings *)

Definition codeunit := N.
Definition jsstring := list codeunit.

(** A source literal made of ASCII characters only. *)
Definition lit (s : string) : jsstring :=
  map N_of_ascii (list_ascii_of_string s).

(** The character [U+0022], which a literal of this file cannot hold. *)
Definition dquote : jsstring := [34%N].
(** The Naira sign [U+20A6]. *)
Definition naira : jsstring := [8358%N].

Fixpoint streq (a b : jsstring) : bool :=
  match a, b with
  | [], [] => true
  | x :: a', y :: b' => N.eqb x y && streq a' b'
  | _, _ => false
  end.

(** [!s] is false exactly for a non-empty string. *)
Definition truthy (s : jsstring) : bool :=
  match s with [] => false | _ :: _ => true end.

(** [!o] for [o : string | undefined | null]. *)
Definition truthy_opt (o : option jsstring) : bool :=
  match o with Some s => truthy s | None => false end.

(** [WhiteSpace] and [LineTerminator] of ECMA-262: what [trim] strips and
    what [\s] matches. *)
Definition isWhiteSpace (c : codeunit) : bool :=
  existsb (N.eqb c)
    [9; 10; 11; 12; 13; 32; 160; 5760; 8232; 8233; 8239; 8287; 12288; 65279]%N
  || (N.leb 8192 c && N.leb c 8202).

Fixpoint trimStart (s : jsstring) : jsstring :=
  match s with
  | c :: r => if isWhiteSpace c then trimStart r else s
  | [] => []
  end.

Definition trimEnd (s : jsstring) : jsstring := rev (trimStart (rev s)).

(** [String.prototype.trim]. *)
Definition trim (s : jsstring) : jsstring := trimEnd (trimStart s).

(** [s.replace(/\s+/g, '-')]: every maximal run of white space becomes one
    hyphen.  [in_run] tells that the previous code unit was white space. *)
Fixpoint replace_ws_runs (in_run : bool) (s : jsstring) : jsstring :=
  match s with
  | [] => []
  | c :: r =>
      if isWhiteSpace c
      then (if in_run then replace_ws_runs true r
            else 45%N :: replace_ws_runs true r)
      else c :: replace_ws_runs false r
  end.

(** [s.split(',')[1]]: the text between the first and the second comma,
    [undefined] when [s] has no comma. *)
Fixpoint upto_comma (s : jsstring) : jsstring :=
  match s with
  | [] => []
  | c :: r => if N.eqb c 44 then [] else c :: upto_comma r
  end.

Fixpoint split_comma_1 (s : jsstring) : option jsstring :=
  match s with
  | [] => None
  | c :: r => if N.eqb c 44 then Some (upto_comma r) else split_comma_1 r
  end.

(** [t] occurs in [s] as a contiguous substring. *)
Definition substring_of (t s : jsstring) : Prop :=
  exists pre post, s = pre ++ t ++ post.

(** ** Numbers *)

Inductive number : Type :=
| Fin (q : Q)
| NaN
| PosInf
| NegInf.

Definition of_N (n : N) : number := Fin (inject_Z (Z.of_N n)).
Definition of_Z (z : Z) : number := Fin (inject_Z z).

(** The sign of a rational: [Lt], [Eq] or [Gt] against zero. *)
Definition Qsign (q : Q) : comparison := Z.compare (Qnum q) 0.

Definition isFinite (x : number) : bool :=
  match x with Fin _ => true | _ => false end.

Definition neg (x : number) : number :=
  match x with
  | Fin q => Fin (Qopp q)
  | NaN => NaN
  | PosInf => NegInf
  | NegInf => PosInf
  end.

Definition add (x y : number) : number :=
  match x, y with
  | NaN, _ | _, NaN => NaN
  | Fin a, Fin b => Fin (Qplus a b)
  | PosInf, NegInf | NegInf, PosInf => NaN
  | PosInf, _ | _, PosInf => PosInf
  | NegInf, _ | _, NegInf => NegInf
  end.

Definition sub (x y : number) : number := add x (neg y).

(** An infinity of the sign of [s], or [NaN] for a zero. *)
Definition inf_of_sign (s : comparison) : number :=
  match s with Gt => PosInf | Lt => NegInf | Eq => NaN end.

Definition sign_of (x : number) : comparison :=
  match x with
  | Fin q => Qsign q
  | PosInf => Gt
  | NegInf => Lt
  | NaN => Eq
  end.

Definition sign_mul (a b : comparison) : comparison :=
  match a, b with
  | Eq, _ | _, Eq => Eq
  | Gt, Gt | Lt, Lt => Gt
  | _, _ => Lt
  end.

Definition mul (x y : number) : number :=
  match x, y with
  | NaN, _ | _, NaN => NaN
  | Fin a, Fin b => Fin (Qmult a b)
  | _, _ => inf_of_sign (sign_mul (sign_of x) (sign_of y))
  end.

(** Division; a zero divisor is [+0]. *)
Definition div (x y : number) : number :=
  match x, y with
  | NaN, _ | _, NaN => NaN
  | Fin a, Fin b =>
      match Qsign b with
      | Eq => inf_of_sign (Qsign a)
      | _ => Fin (Qdiv a b)
      end
  | Fin _, _ => Fin 0%Q
  | _, Fin b =>
      match Qsign b with
      | Eq => x
      | s => inf_of_sign (sign_mul (sign_of x) s)
      end
  | _, _ => NaN
  end.

(** [x <= y] of JavaScript, false as soon as an operand is [NaN]. *)
Definition leb (x y : number) : bool :=
  match x, y with
  | NaN, _ | _, NaN => false
  | NegInf, _ | _, PosInf => true
  | Fin a, Fin b => Qle_bool a b
  | _, _ => false
  end.

(** [x > y] of JavaScript. *)
Definition gtb (x y : number) : bool :=
  match x, y with
  | NaN, _ | _, NaN => false
  | _, _ => negb (leb x y)
  end.

(** [Math.max(x, y)]. *)
Definition Math_max (x y : number) : number :=
  match x, y with
  | NaN, _ | _, NaN => NaN
  | _, _ => if leb x y then y else x
  end.

End JS.

(* ================================================================== *)
(** * JSON values and [JSON.parse] *)
(* ================================================================== *)

Module JSON.
Import JS.

(** A value as [JSON.parse] builds it.  An object keeps its members in
    source order; a number keeps its literal. *)
Inductive JSValue : Type :=
| JNull
| JBool (b : bool)
| JNumber (literal : jsstring)
| JString (s : jsstring)
| JArray (elements : list JSValue)
| JObject (members : list (jsstring * JSValue)).

(** [o[k]] on the members of a parsed object: of two members with one name
    the later one is the property's value. *)
Fixpoint get_member (members : list (jsstring * JSValue)) (k : jsstring)
  : option JSValue :=
  match members with
  | [] => None
  | (k', v) :: rest =>
      match get_member rest k with
      | Some v' => Some v'
      | None => if streq k' k then Some v else None
      end
  end.

(** [v[k]] for a property name that is neither an index nor built in:
    [undefined] unless [v] is an object holding it. *)
Definition get (v : JSValue) (k : jsstring) : option JSValue :=
  match v with
  | JObject members => get_member members k
  | _ => None
  end.

Definition ch (a : ascii) : codeunit := N_of_ascii a.

Definition is_ws (c : codeunit) : bool :=
  N.eqb c 32 || N.eqb c 9 || N.eqb c 10 || N.eqb c 13.

Fixpoint skip_ws (s : jsstring) : jsstring :=
  match s with
  | c :: r => if is_ws c then skip_ws r else s
  | [] => []
  end.

Definition is_digit (c : codeunit) : bool := N.leb 48 c && N.leb c 57.

Definition hex_value (c : codeunit) : option N :=
  if is_digit c then Some (c - 48)%N
  else if N.leb 97 c && N.leb c 102 then Some (c - 87)%N
  else if N.leb 65 c && N.leb c 70 then Some (c - 55)%N
  else None.

Definition hex4 (a b c d : codeunit) : option codeunit :=
  match hex_value a, hex_value b, hex_value c, hex_value d with
  | Some x, Some y, Some z, Some w => Some (((x * 16 + y) * 16 + z) * 16 + w)%N
  | _, _, _, _ => None
  end.

(** The code unit a two-character escape stands for. *)
Definition simple_escape (e : codeunit) : option codeunit :=
  if N.eqb e 34 then Some 34%N
  else if N.eqb e 92 then Some 92%N
  else if N.eqb e (ch "/") then Some 47%N
  else if N.eqb e (ch "b") then Some 8%N
  else if N.eqb e (ch "f") then Some 12%N
  else if N.eqb e (ch "n") then Some 10%N
  else if N.eqb e (ch "r") then Some 13%N
  else if N.eqb e (ch "t") then Some 9%N
  else None.

Definition cons_chars (c : codeunit) (r : option (jsstring * jsstring))
  : option (jsstring * jsstring) :=
  match r with
  | Some (str, rest) => Some (c :: str, rest)
  | None => None
  end.

(** The characters of a string after its opening quote, up to and including
    the closing quote: the string's value and the text that follows. *)
Fixpoint string_chars (s : jsstring) : option (jsstring * jsstring) :=
  match s with
  | [] => None
  | c :: r =>
      if N.eqb c 34 then Some ([], r)
      else if N.eqb c 92 then
        match r with
        | [] => None
        | e :: r1 =>
            if N.eqb e (ch "u") then
              match r1 with
              | h1 :: h2 :: h3 :: h4 :: r2 =>
                  match hex4 h1 h2 h3 h4 with
                  | Some u => cons_chars u (string_chars r2)
                  | None => None
                  end
              | _ => None
              end
            else
              match simple_escape e with
              | Some u => cons_chars u (string_chars r1)
              | None => None
              end
        end
      else if N.ltb c 32 then None
      else cons_chars c (string_chars r)
  end.

(** The longest prefix of digits, and what follows it. *)
Fixpoint digits (s : jsstring) : jsstring * jsstring :=
  match s with
  | c :: r =>
      if is_digit c then let (ds, rest) := digits r in (c :: ds, rest)
      else ([], s)
  | [] => ([], [])
  end.

Definition opt_minus (s : jsstring) : jsstring * jsstring :=
  match s with
  | c :: r => if N.eqb c (ch "-") then ([c], r) else ([], s)
  | [] => ([], [])
  end.

Definition int_part (s : jsstring) : option (jsstring * jsstring) :=
  match s with
  | c :: r =>
      if N.eqb c 48 then Some ([c], r)
      else if is_digit c then let (ds, rest) := digits r in Some (c :: ds, rest)
      else None
  | [] => None
  end.

Definition frac_part (s : jsstring) : option (jsstring * jsstring) :=
  match s with
  | c :: r =>
      if N.eqb c (ch ".") then
        match digits r with
        | ([], _) => None
        | (ds, rest) => Some (c :: ds, rest)
        end
      else Some ([], s)
  | [] => Some ([], [])
  end.

Definition exp_sign (s : jsstring) : jsstring * jsstring :=
  match s with
  | c :: r =>
      if N.eqb c (ch "+") || N.eqb c (ch "-") then ([c], r) else ([], s)
  | [] => ([], [])
  end.

Definition exp_part (s : jsstring) : option (jsstring * jsstring) :=
  match s with
  | c :: r =>
      if N.eqb c (ch "e") || N.eqb c (ch "E") then
        let (sg, r1) := exp_sign r in
        match digits r1 with
        | ([], _) => None
        | (ds, rest) => Some (c :: sg ++ ds, rest)
        end
      else Some ([], s)
  | [] => Some ([], [])
  end.

(** A JSON number at the head of [s]: its literal and what follows. *)
Definition number_literal (s : jsstring) : option (jsstring * jsstring) :=
  let (m, s1) := opt_minus s in
  match int_part s1 with
  | None => None
  | Some (i, s2) =>
      match frac_part s2 with
      | None => None
      | Some (f, s3) =>
          match exp_part s3 with
          | None => None
          | Some (e, s4) => Some (m ++ i ++ f ++ e, s4)
          end
      end
  end.

(** [s] without the prefix [p], when it starts with [p]. *)
Fixpoint strip_prefix (p s : jsstring) : option jsstring :=
  match p, s with
  | [], _ => Some s
  | x :: p', y :: s' => if N.eqb x y then strip_prefix p' s' else None
  | _ :: _, [] => None
  end.

Inductive presult : Type :=
| OutOfFuel
| Malformed
| Parsed (v : JSValue) (rest : jsstring).

Definition keyword (w : string) (v : JSValue) (s : jsstring) : presult :=
  match strip_prefix (lit w) s with
  | Some rest => Parsed v rest
  | None => Malformed
  end.

(** Recursive descent.  [parse_value] reads one value at the head of [s]
    (white space already skipped); [parse_elements] reads the elements of an
    array after its bracket, [parse_members] the members of an object after
    its brace, both with the items read so far in reverse. *)
Fixpoint parse_value (fuel : nat) (s : jsstring) : presult :=
  match fuel with
  | O => OutOfFuel
  | S fuel' =>
      match s with
      | [] => Malformed
      | c :: r =>
          if N.eqb c (ch "{") then
            match skip_ws r with
            | [] => Malformed
            | c' :: r' =>
                if N.eqb c' (ch "}") then Parsed (JObject []) r'
                else parse_members fuel' (c' :: r') []
            end
          else if N.eqb c (ch "[") then
            match skip_ws r with
            | [] => Malformed
            | c' :: r' =>
                if N.eqb c' (ch "]") then Parsed (JArray []) r'
                else parse_elements fuel' (c' :: r') []
            end
          else if N.eqb c 34 then
            match string_chars r with
            | Some (str, rest) => Parsed (JString str) rest
            | None => Malformed
            end
          else if N.eqb c (ch "t") then keyword "true" (JBool true) s
          else if N.eqb c (ch "f") then keyword "false" (JBool false) s
          else if N.eqb c (ch "n") then keyword "null" JNull s
          else
            match number_literal s with
            | Some (l, rest) => Parsed (JNumber l) rest
            | None => Malformed
            end
      end
  end
with parse_elements (fuel : nat) (s : jsstring) (acc : list JSValue) : presult :=
  match fuel with
  | O => OutOfFuel
  | S fuel' =>
      match parse_value fuel' s with
      | Parsed v r =>
          match skip_ws r with
          | [] => Malformed
          | c :: r' =>
              if N.eqb c (ch ",") then parse_elements fuel' (skip_ws r') (v :: acc)
              else if N.eqb c (ch "]") then Parsed (JArray (rev (v :: acc))) r'
              else Malformed
          end
      | other => other
      end
  end
with parse_members (fuel : nat) (s : jsstring) (acc : list (jsstring * JSValue))
  : presult :=
  match fuel with
  | O => OutOfFuel
  | S fuel' =>
      match s with
      | [] => Malformed
      | q :: r =>
          if N.eqb q 34 then
            match string_chars r with
            | None => Malformed
            | Some (key, r1) =>
                match skip_ws r1 with
                | [] => Malformed
                | c1 :: r2 =>
                    if N.eqb c1 (ch ":") then
                      match parse_value fuel' (skip_ws r2) with
                      | Parsed v r3 =>
                          match skip_ws r3 with
                          | [] => Malformed
                          | c2 :: r4 =>
                              if N.eqb c2 (ch ",")
                              then parse_members fuel' (skip_ws r4) ((key, v) :: acc)
                              else if N.eqb c2 (ch "}")
                              then Parsed (JObject (rev ((key, v) :: acc))) r4
                              else Malformed
                          end
                      | other => other
                      end
                    else Malformed
                end
            end
          else Malformed
      end
  end.

(** The fuel that reading [s] can use at most. *)
Definition fuel_for (s : jsstring) : nat := 2 * List.length s + 1.

(** [JSON.parse(text)]: the value when [text] is one JSON value between
    optional white space, [None] when [JSON.parse] throws [SyntaxError]. *)
Definition parse (text : jsstring) : option JSValue :=
  let s := skip_ws text in
  match parse_value (fuel_for s) s with
  | Parsed v rest =>
      match skip_ws rest with
      | [] => Some v
      | _ :: _ => None
      end
  | _ => None
  end.

End JSON.

(* ================================================================== *)
(** * The numbers of a parsed text *)
(* ================================================================== *)

(** [JSON.parse] turns a number literal into a Number value, and the
    program prints such a value in a template literal and tests it with
    [!]: both depend on the rounding to binary64, which is modelled here in
    full. *)
Module JSNumber.
Import JS JSON.

(** ** Number values *)

(** A Number value other than [NaN], which no JSON text denotes: a zero, an
    infinity, or [m * 2^e] with [0 < m < 2^53] and [-1074 <= e <= 971],
    where [2^52 <= m] unless [e = -1074]. *)
Inductive double : Type :=
| Zero (negative : bool)
| Finite (negative : bool) (m : Z) (e : Z)
| Infinite (negative : bool).

(** The number that a string of decimal digits writes. *)
Definition digits_value (ds : jsstring) : Z :=
  fold_left (fun acc c => (acc * 10 + Z.of_N (c - 48))%Z) ds 0%Z.

(** [b^n] for [n >= 0], by repeated squaring. *)
Definition power (b n : Z) : Z :=
  match n with
  | Zpos p => Pos.iter_op Z.mul p b
  | _ => 1%Z
  end.

(** The quotient and the remainder of [num / den / 2^e], and the divisor. *)
Definition scaled (num den e : Z) : Z * Z * Z :=
  if (0 <=? e)%Z
  then let d := (den * power 2 e)%Z in (Z.div_eucl num d, d)
  else (Z.div_eucl (num * power 2 (- e)) den, den).

(** The Number value for the positive rational [num / den]: the nearest
    one, the one with an even significand when two are as near, and an
    infinity from [2^1024 - 2^970] on. *)
Definition nearest (negative : bool) (num den : Z) : double :=
  let e0 := (Z.log2 num - Z.log2 den - 52)%Z in
  let e1 := match scaled num den e0 with
            | (q, _, _) => if (q <? power 2 52)%Z then (e0 - 1)%Z else e0
            end in
  let e := Z.max e1 (-1074) in
  match scaled num den e with
  | (q, r, d) =>
      let up := (d <? 2 * r)%Z || ((d =? 2 * r)%Z && Z.odd q) in
      let m := if up then (q + 1)%Z else q in
      let (m', e') := if (m =? power 2 53)%Z then (power 2 52, e + 1)%Z
                      else (m, e) in
      if (m' =? 0)%Z then Zero negative
      else if (971 <? e')%Z then Infinite negative
      else Finite negative m' e'
  end.

(** The Number value for [m * 10^e10]. *)
Definition of_decimal (negative : bool) (m e10 : Z) : double :=
  if (m =? 0)%Z then Zero negative
  else if (0 <=? e10)%Z then nearest negative (m * power 10 e10) 1
  else nearest negative m (power 10 (- e10)).

(** The Number value that [JSON.parse] gives for a number literal. *)
Definition of_literal (l : jsstring) : double :=
  let (minus, s1) := opt_minus l in
  let (int, s2) := digits s1 in
  let (frac, s3) := match s2 with
                    | c :: r => if N.eqb c (ch ".") then digits r else ([], s2)
                    | [] => ([], [])
                    end in
  let exponent := match s3 with
                  | _ :: r =>
                      let (sign, r1) := exp_sign r in
                      let v := digits_value (fst (digits r1)) in
                      match sign with
                      | [c] => if N.eqb c (ch "-") then (- v)%Z else v
                      | _ => v
                      end
                  | [] => 0%Z
                  end in
  of_decimal (match minus with [] => false | _ => true end)
    (digits_value (int ++ frac))
    (exponent - Z.of_nat (List.length frac)).

(** [+0] and [-0], the Number values that are falsy. *)
Definition is_zero (x : double) : bool :=
  match x with Zero _ => true | _ => false end.

(** ** [Number::toString] *)

(** Two finite values are the same up to their sign. *)
Definition same_magnitude (x y : double) : bool :=
  match x, y with
  | Finite _ m e, Finite _ m' e' => (m =? m')%Z && (e =? e')%Z
  | _, _ => false
  end.

(** [m * 2^e < 10^n]. *)
Definition below_power_of_ten (m e n : Z) : bool :=
  let (xn, xd) := if (0 <=? e)%Z then (m * power 2 e, 1)%Z
                  else (m, power 2 (- e))%Z in
  if (0 <=? n)%Z then (xn <? xd * power 10 n)%Z
  else (xn * power 10 (- n) <? xd)%Z.

(** The [n] with [10^(n-1) <= m * 2^e < 10^n]: looked for around the
    estimate that the binary logarithm gives, then among the exponents of
    all finite Number values, -323 to 309. *)
Definition decimal_exponent (m e : Z) : Z :=
  let fits n := below_power_of_ten m e n
                && negb (below_power_of_ten m e (n - 1)) in
  let g := ((Z.log2 m + e) * 1233 / 4096)%Z in
  match find fits (map (fun i => (g + Z.of_nat i - 2)%Z) (seq 0 6)) with
  | Some n => n
  | None =>
      match find fits (map (fun i => (Z.of_nat i - 323)%Z) (seq 0 633)) with
      | Some n => n
      | None => 309%Z
      end
  end.

(** For [x = m * 2^e] and [k] digits: the integers [s] just below and just
    above [x / 10^(n-k)], each with the distance of [s * 10^(n-k)] to [x]
    as a multiple of one common unit. *)
Definition neighbours (m e n k : Z) : (Z * Z) * (Z * Z) :=
  let (xn, xd) := if (0 <=? e)%Z then (m * power 2 e, 1)%Z
                  else (m, power 2 (- e))%Z in
  let p := (n - k)%Z in
  let (a, b) := if (0 <=? p)%Z then (xn, xd * power 10 p)%Z
                else (xn * power 10 (- p), xd)%Z in
  let s := (a / b)%Z in
  ((s, a - s * b), (s + 1, (s + 1) * b - a))%Z.

(** The digits that [Number::toString] writes for [m * 2^e]: the integer
    [s] of [k] digits, [k] the least possible, such that [s * 10^(n-k)]
    reads back as the same Number value; of two such integers the one
    nearer to it, and the even one when they are as near, which is what
    ECMA-262 recommends where it leaves the last digit open.  Only a
    neighbour of [x / 10^(n-k)] can read back as [x], and seventeen digits
    always do, so the search ends before its bound. *)
Fixpoint shortest (fuel : nat) (m e n k : Z) : Z * Z :=
  match fuel with
  | O => (fst (fst (neighbours m e n k)), k)
  | S fuel' =>
      match neighbours m e n k with
      | ((lo, dlo), (hi, dhi)) =>
          let x := Finite false m e in
          let ok s := same_magnitude (of_decimal false s (n - k)) x in
          match ok lo, ok hi with
          | true, true =>
              if (dlo <? dhi)%Z then (lo, k)
              else if (dhi <? dlo)%Z then (hi, k)
              else if Z.even lo then (lo, k) else (hi, k)
          | true, false => (lo, k)
          | false, true => (hi, k)
          | false, false => shortest fuel' m e n (k + 1)%Z
          end
      end
  end.

(** The decimal digits of [z >= 0]. *)
Definition decimal (z : Z) : jsstring :=
  lit (NilEmpty.string_of_uint (N.to_uint (Z.to_N z))).

Definition zeros (n : Z) : jsstring := repeat 48%N (Z.to_nat n).

(** The text for the digits [ds] of [s] and the exponent [n], where the
    value is [s * 10^(n-k)] and [k] the number of digits. *)
Definition layout (ds : jsstring) (n : Z) : jsstring :=
  let k := Z.of_nat (List.length ds) in
  if (k <=? n)%Z && (n <=? 21)%Z then ds ++ zeros (n - k)
  else if (0 <? n)%Z && (n <=? 21)%Z
  then firstn (Z.to_nat n) ds ++ lit "." ++ skipn (Z.to_nat n) ds
  else if (-6 <? n)%Z && (n <=? 0)%Z then lit "0." ++ zeros (- n) ++ ds
  else
    let exponent := (if (0 <? n - 1)%Z then lit "+" else lit "-")
                    ++ decimal (Z.abs (n - 1)) in
    match ds with
    | [d] => [d] ++ lit "e" ++ exponent
    | d :: rest => [d] ++ lit "." ++ rest ++ lit "e" ++ exponent
    | [] => []
    end.

(** [Number::toString(x)] in radix ten.  The upper neighbour of [x] may be
    [10^k], a one followed by zeros: it is then written with the digit one
    and the next exponent. *)
Definition Number_toString (x : double) : jsstring :=
  match x with
  | Zero _ => lit "0"
  | Infinite negative => (if negative then lit "-" else []) ++ lit "Infinity"
  | Finite negative m e =>
      let n := decimal_exponent m e in
      let (s, k) := shortest 17 m e n 1 in
      let (s', n') := if (s =? power 10 k)%Z then (1%Z, (n + 1)%Z)
                      else (s, n) in
      (if negative then lit "-" else []) ++ layout (decimal s') n'
  end.

End JSNumber.

(* ================================================================== *)
(** * [services/geminiService] *)
(* ================================================================== *)

Module GeminiService.
Import JS JSON.

(** ** The data exchanged with the platform and the remote service *)

(** A [File]: its declared media type and what [readAsDataURL] yields for
    it, [None] when the read fails. *)
Record File : Type := mkFile {
  file_type : jsstring;
  file_dataURL : option jsstring
}.

(** [inlineData] of a content part. *)
Record Blob : Type := mkBlob {
  blob_data : option jsstring;
  blob_mimeType : option jsstring
}.

(** A content part, of a request or of a response. *)
Record Part : Type := mkPart {
  part_text : option jsstring;
  part_inlineData : option Blob
}.

Inductive SchemaType : Type := OBJECT | STRING | ARRAY.

Record PropertySchema : Type := mkProperty {
  prop_type : SchemaType;
  prop_items : option SchemaType;
  prop_description : jsstring
}.

Record Schema : Type := mkSchema {
  schema_type : SchemaType;
  properties : list (jsstring * PropertySchema);
  required : list jsstring
}.

Record Config : Type := mkConfig {
  responseMimeType : option jsstring;
  responseSchema : option Schema;
  systemInstruction : option jsstring
}.

Record Request : Type := mkRequest {
  model : jsstring;
  contents : list Part;
  config : Config
}.

Record Content : Type := mkContent { content_parts : option (list Part) }.
Record Candidate : Type := mkCandidate { candidate_content : option Content }.

(** A [GenerateContentResponse]: what its [text] accessor gives, and its
    [candidates]. *)
Record Response : Type := mkResponse {
  response_text : option jsstring;
  response_candidates : option (list Candidate)
}.

(** ** Thrown values, outcomes, events *)

Inductive thrown : Type :=
| Error (message : jsstring)          (* [new Error(message)] *)
| ReadFailure                         (* the file reader's error event *)
| ServiceFailure (message : jsstring) (* a rejection of the remote call *)
| SyntaxError (message : jsstring)    (* thrown by [JSON.parse] *)
| TypeError (message : jsstring).     (* thrown by a conversion to text *)

(** [err.message]: [undefined] for the reader's event, which has none. *)
Definition message_of (err : thrown) : option jsstring :=
  match err with
  | Error m | ServiceFailure m | SyntaxError m | TypeError m => Some m
  | ReadFailure => None
  end.

Inductive outcome (A : Type) : Type :=
| Returns (a : A)
| Throws (e : thrown).
Arguments Throws {A} e.

(** [new GoogleGenAI({ apiKey })]. *)
Record GoogleGenAI : Type := mkClient { apiKey : option jsstring }.

Inductive event : Type :=
| Sent (ai : GoogleGenAI) (req : Request)    (* one call of the transport *)
| ConsoleError (label : jsstring) (e : thrown).

(** What a call runs against: [process.env.API_KEY], the answer of
    [ai.models.generateContent] to each request, and the engine's wording
    of the [SyntaxError] for a malformed text and of the [TypeError] for a
    variable whose value has no primitive value. *)
Record World : Type := mkWorld {
  API_KEY : option jsstring;
  generateContent : Request -> outcome Response;
  syntax_message : jsstring -> jsstring;
  type_message : jsstring -> JSValue -> jsstring
}.

(** ** Computations *)

Definition Eff (A : Type) : Type := World -> outcome A * list event.

Definition ret {A} (a : A) : Eff A := fun _ => (Returns a, []).
Definition throw {A} (e : thrown) : Eff A := fun _ => (Throws e, []).

Definition bind {A B} (m : Eff A) (k : A -> Eff B) : Eff B :=
  fun w =>
    match m w with
    | (Returns a, t1) => let (r, t2) := k a w in (r, t1 ++ t2)
    | (Throws e, t1) => (Throws e, t1)
    end.

(** [try { body } catch (error) { handler }]. *)
Definition try_catch {A} (body : Eff A) (handler : thrown -> Eff A) : Eff A :=
  fun w =>
    match body w with
    | (Returns a, t1) => (Returns a, t1)
    | (Throws e, t1) => let (r, t2) := handler e w in (r, t1 ++ t2)
    end.

Definition process_env_API_KEY : Eff (option jsstring) :=
  fun w => (Returns (API_KEY w), []).

Definition models_generateContent (ai : GoogleGenAI) (req : Request)
  : Eff Response :=
  fun w => (generateContent w req, [Sent ai req]).

Definition console_error (label : jsstring) (e : thrown) : Eff unit :=
  fun _ => (Returns tt, [ConsoleError label e]).

Definition JSON_parse (text : jsstring) : Eff JSValue :=
  fun w =>
    match JSON.parse text with
    | Some v => (Returns v, [])
    | None => (Throws (SyntaxError (syntax_message w text)), [])
    end.

Declare Scope eff_scope.
Delimit Scope eff_scope with eff.
Notation "x <- m ;; k" := (bind m (fun x => k))
  (at level 61, m at next level, right associativity) : eff_scope.
Notation "m ;;; k" := (bind m (fun _ => k))
  (at level 61, right associativity) : eff_scope.
Local Open Scope eff_scope.

(** The trace of a run and the number of transport calls in it. *)
Definition is_sent (e : event) : bool :=
  match e with Sent _ _ => true | ConsoleError _ _ => false end.

Definition transport_calls (t : list event) : nat :=
  List.length (filter is_sent t).

(** ** [fileToGenerativePart] *)

Definition fileToGenerativePart (file : File) : Eff Part :=
  match file_dataURL file with
  | None => throw ReadFailure
  | Some base64Data =>
      let base64Content := split_comma_1 base64Data in
      ret (mkPart None (Some (mkBlob base64Content (Some (file_type file)))))
  end.

(** ** [generateProductContent] *)

Definition schema : Schema :=
  mkSchema OBJECT
    [ (lit "productName",
       mkProperty STRING None
         (lit "A professional, catchy, and clean name for the product."));
      (lit "shortDescription",
       mkProperty STRING None
         (lit "A 2-3 sentence engaging description suitable for social media captions."));
      (lit "longDescription",
       mkProperty STRING None
         (lit "A detailed paragraph highlighting features, benefits, and use cases."));
      (lit "suggestedPrice",
       mkProperty STRING None
         (lit "A suggested price range in Nigerian Naira (" ++ naira
          ++ lit ") based on Jumia Nigeria market rates (e.g., '" ++ naira
          ++ lit "15,000 - " ++ naira ++ lit "20,000')."));
      (lit "seoKeywords",
       mkProperty ARRAY (Some STRING)
         (lit "Top 5-8 SEO keywords for search visibility."));
      (lit "hashtags",
       mkProperty ARRAY (Some STRING)
         (lit "10-15 relevant and trending hashtags for Instagram/TikTok."));
      (lit "socialMediaPost",
       mkProperty STRING None
         (lit "A ready-to-post caption for Instagram/Facebook including emojis and hook."));
      (lit "targetAudience",
       mkProperty STRING None
         (lit "Brief description of who this product is for.")) ]
    [ lit "productName"; lit "shortDescription"; lit "longDescription";
      lit "suggestedPrice"; lit "seoKeywords"; lit "hashtags";
      lit "socialMediaPost"; lit "targetAudience" ].

Definition content_model : jsstring := lit "gemini-2.5-flash".

Definition content_prompt : jsstring :=
  lit "You are an expert e-commerce copywriter and sales strategist for the Nigerian market. Analyze the input (image and/or text) and generate a high-converting product listing.".

Definition user_context (textInput : jsstring) : jsstring :=
  [10%N; 10%N] ++ lit "User provided context: " ++ dquote ++ textInput
  ++ dquote ++ lit ". Use this context to refine the description.".

Definition content_config : Config :=
  mkConfig
    (Some (lit "application/json"))
    (Some schema)
    (Some (lit "You are MerchantAI, a helpful assistant for Nigerian small business owners. Your tone is professional, enthusiastic, and sales-oriented. Always format currency in Nigerian Naira ("
           ++ naira
           ++ lit "). Use Jumia Nigeria pricing as a benchmark for accuracy. Focus on benefits relevant to the local market.")).

Definition missing_key_content : thrown :=
  Error (lit "API Key is missing. Please check your environment variables.").
Definition missing_input : thrown :=
  Error (lit "Please provide an image or text description.").
Definition no_response : thrown := Error (lit "No response generated").
Definition content_failed : thrown :=
  Error (lit "Failed to generate content. Please try again.").

Definition isSome {A} (o : option A) : bool :=
  match o with Some _ => true | None => false end.

(** The test [!imageFile && !textInput]. *)
Definition no_input (imageFile : option File) (textInput : jsstring) : bool :=
  negb (isSome imageFile) && negb (truthy textInput).

Definition generateProductContent (imageFile : option File) (textInput : jsstring)
  : Eff JSValue :=
  key <- process_env_API_KEY ;;
  if negb (truthy_opt key) then throw missing_key_content
  else
    let ai := mkClient key in
    let promptText :=
      content_prompt ++ (if truthy textInput then user_context textInput else [])
    in
    if no_input imageFile textInput
    then throw missing_input
    else
      imageParts <- match imageFile with
                    | Some f => imagePart <- fileToGenerativePart f ;; ret [imagePart]
                    | None => ret []
                    end ;;
      let parts := mkPart (Some promptText) None :: imageParts in
      try_catch
        (response <- models_generateContent ai
                       (mkRequest content_model parts content_config) ;;
         match response_text response with
         | Some ((_ :: _) as text) => JSON_parse text
         | _ => throw no_response
         end)
        (fun error =>
           console_error (lit "Gemini API Error:") error ;;;
           throw content_failed).

(** ** [generateLifestyleImage] *)

Definition image_model : jsstring := lit "gemini-2.5-flash-image".

Definition lifestyle_prompt (productName description : jsstring) : jsstring :=
  lit "Create a high-quality, professional Instagram lifestyle photography shot for the product "
  ++ dquote ++ productName ++ dquote ++ lit ". " ++ [10%N]
  ++ lit "  Context/Description: " ++ description ++ lit ". " ++ [10%N]
  ++ lit "  The image should be aesthetically pleasing, bright, and suitable for social media marketing. "
  ++ [10%N]
  ++ lit "  Aspect Ratio 1:1.".

Definition edit_directive (editInstruction : jsstring) : jsstring :=
  [10%N; 10%N] ++ lit "IMPORTANT EDIT INSTRUCTION: " ++ editInstruction
  ++ lit ". Modify the image to strictly follow this instruction (e.g., change color, background, or setting).".

Definition preserve_directive : jsstring :=
  lit " preserve the key visual details of the product in the input image but place it in a better background/setting.".

Definition image_config : Config := mkConfig None None None.

Definition missing_key_image : thrown := Error (lit "API Key is missing.").
Definition no_image : thrown := Error (lit "No image generated by the model.").
Definition image_failed : thrown :=
  Error (lit "Failed to generate lifestyle image.").

(** The test [part.inlineData && part.inlineData.data] and the returned
    data URI. *)
Definition inline_image (part : Part) : option jsstring :=
  match part_inlineData part with
  | Some (mkBlob (Some ((_ :: _) as data)) mimeType) =>
      Some (lit "data:"
            ++ (match mimeType with
                | Some ((_ :: _) as m) => m
                | _ => lit "image/png"
                end)
            ++ lit ";base64," ++ data)
  | _ => None
  end.

(** The loop over [content.parts]: the first part that passes the test. *)
Fixpoint first_inline_image (parts : list Part) : option jsstring :=
  match parts with
  | [] => None
  | part :: rest =>
      match inline_image part with
      | Some uri => Some uri
      | None => first_inline_image rest
      end
  end.

(** [response.candidates?.[0]?.content?.parts], when it is an array. *)
Definition first_candidate_parts (response : Response) : option (list Part) :=
  match response_candidates response with
  | Some (c :: _) =>
      match candidate_content c with
      | Some content => content_parts content
      | None => None
      end
  | _ => None
  end.

(** The parts of an answer that the loop visits: those of the first
    candidate, none when the answer has no such array. *)
Definition visited_parts (response : Response) : list Part :=
  match first_candidate_parts response with
  | Some ps => ps
  | None => []
  end.

Definition generateLifestyleImage (originalImage : option File)
    (productName description editInstruction : jsstring) : Eff jsstring :=
  key <- process_env_API_KEY ;;
  if negb (truthy_opt key) then throw missing_key_image
  else
    let ai := mkClient key in
    let promptText :=
      lifestyle_prompt productName description
      ++ (if truthy editInstruction then edit_directive editInstruction else [])
    in
    imageParts_prompt <-
      match originalImage with
      | Some f =>
          imagePart <- fileToGenerativePart f ;;
          ret ([imagePart], promptText ++ preserve_directive)
      | None => ret ([], promptText)
      end ;;
    let parts := fst imageParts_prompt ++ [mkPart (Some (snd imageParts_prompt)) None] in
    try_catch
      (response <- models_generateContent ai
                     (mkRequest image_model parts image_config) ;;
       match first_candidate_parts response with
       | Some ps =>
           match first_inline_image ps with
           | Some uri => ret uri
           | None => throw no_image
           end
       | None => throw no_image
       end)
      (fun error =>
         console_error (lit "Gemini Image Gen Error:") error ;;;
         throw image_failed).

(** ** The declared shape of a listing *)

Definition is_string (v : JSValue) : bool :=
  match v with JString _ => true | _ => false end.

(** [v] is of the kind a property of the schema declares. *)
Definition has_kind (p : PropertySchema) (v : JSValue) : bool :=
  match prop_type p, v with
  | STRING, JString _ => true
  | ARRAY, JArray elements =>
      match prop_items p with
      | Some STRING => forallb is_string elements
      | _ => true
      end
  | OBJECT, JObject _ => true
  | _, _ => false
  end.

Fixpoint property_of (props : list (jsstring * PropertySchema)) (name : jsstring)
  : option PropertySchema :=
  match props with
  | [] => None
  | (k, p) :: rest => if streq k name then Some p else property_of rest name
  end.

(** The property [name] of [v] is present and of the declared kind. *)
Definition field_ok (s : Schema) (v : JSValue) (name : jsstring) : bool :=
  match get v name, property_of (properties s) name with
  | Some x, Some p => has_kind p x
  | _, _ => false
  end.

(** [v] is an object with every required field of [s] present and of the
    declared kind. *)
Definition conforms (s : Schema) (v : JSValue) : bool :=
  match v with
  | JObject _ => forallb (field_ok s v) (required s)
  | _ => false
  end.

(** A fully populated [GeneratedProductContent]: the eight fields of
    [types.ts], which are the eight required fields of [schema]. *)
Definition is_GeneratedProductContent (v : JSValue) : bool := conforms schema v.

End GeminiService.

(* ================================================================== *)
(** * [App]: the session state and its handlers *)
(* ================================================================== *)

Module App.
Import JS JSON JSNumber GeminiService.
Local Open Scope eff_scope.

Inductive GenerationStatus : Type := IDLE | LOADING | SUCCESS | ERROR.

(** [AppState] of [types.ts].  [data] holds what [generateProductContent]
    returned, as it is, and [JNull] for [null]. *)
Record AppState : Type := mkState {
  status : GenerationStatus;
  data : JSValue;
  error : option jsstring;
  selectedImage : option File;
  imagePreviewUrl : option jsstring;
  textInput : jsstring;
  isGeneratingImage : bool;
  marketingImageUrl : option jsstring
}.

Definition initial_state : AppState :=
  mkState IDLE JNull None None None [] false None.

(** [!!v]: a number is falsy when its Number value is a zero, which a
    literal with non-zero digits is too once it rounds to zero. *)
Definition ToBoolean (v : JSValue) : bool :=
  match v with
  | JNull => false
  | JBool b => b
  | JNumber l => negb (is_zero (of_literal l))
  | JString s => truthy s
  | JArray _ | JObject _ => true
  end.

(** [l.join(sep)] for texts. *)
Fixpoint join (sep : jsstring) (l : list jsstring) : jsstring :=
  match l with
  | [] => []
  | [x] => x
  | x :: r => x ++ sep ++ join sep r
  end.

(** All the texts of [l], when none is missing. *)
Fixpoint all_texts (l : list (option jsstring)) : option (list jsstring) :=
  match l with
  | [] => Some []
  | Some x :: r => option_map (cons x) (all_texts r)
  | None :: _ => None
  end.

(** The text a template literal inserts for a value of a parsed body,
    [None] when the conversion throws a [TypeError].  A number is printed
    from its Number value.  An array is joined with commas, [null] elements
    giving the empty text.  An object has the [toString] and [valueOf] of
    [Object.prototype] unless a member of its own hides them: with no member
    [toString] it prints as [[object Object]]; with one, which is no
    function, the conversion goes on to [valueOf], gets no primitive value
    from it, and throws. *)
Fixpoint ToString (v : JSValue) : option jsstring :=
  match v with
  | JNull => Some (lit "null")
  | JBool true => Some (lit "true")
  | JBool false => Some (lit "false")
  | JNumber l => Some (Number_toString (of_literal l))
  | JString s => Some s
  | JArray elements =>
      option_map (join (lit ","))
        (all_texts
           (map (fun e => match e with JNull => Some [] | _ => ToString e end)
              elements))
  | JObject members =>
      match get_member members (lit "toString") with
      | Some _ => None
      | None => Some (lit "[object Object]")
      end
  end.

(** [`${x}`] for what reading a property gave: a value or [undefined]. *)
Definition template_text (x : option JSValue) : option jsstring :=
  match x with
  | Some v => ToString v
  | None => Some (lit "undefined")
  end.

(** The [TypeError] of the engine for [variable], whose [value] has no
    primitive value. *)
Definition type_error {A} (variable : jsstring) (value : option JSValue)
  : Eff A :=
  fun w =>
    (Throws (TypeError (type_message w variable
                          (match value with Some v => v | None => JNull end))),
     []).

(** [generateLifestyleImage(originalImage, listing.productName,
    listing.shortDescription, editInstruction)] with the listing as it is at
    run time, its two properties being texts or not.  The operation puts
    them in its template literal after the key test and before the [try]:
    a property without a primitive value makes it throw a [TypeError]
    there, [productName] being converted first. *)
Definition generateLifestyleImage_of (originalImage : option File)
    (listing : JSValue) (editInstruction : jsstring) : Eff jsstring :=
  let productName := get listing (lit "productName") in
  let description := get listing (lit "shortDescription") in
  match template_text productName, template_text description with
  | Some name, Some text =>
      generateLifestyleImage originalImage name text editInstruction
  | None, _ =>
      key <- process_env_API_KEY ;;
      if negb (truthy_opt key) then throw missing_key_image
      else type_error (lit "productName") productName
  | Some _, None =>
      key <- process_env_API_KEY ;;
      if negb (truthy_opt key) then throw missing_key_image
      else type_error (lit "description") description
  end.

Inductive ui_event : Type :=
| Service (e : event)
| Alert (message : jsstring)
| ScrollToTop.

(** What a handler does, in order: state updates ([setState(prev => ...)])
    and events. *)
Inductive step : Type :=
| SetState (update : AppState -> AppState)
| Do (e : ui_event).

Definition set_error (e : option jsstring) (prev : AppState) : AppState :=
  mkState (status prev) (data prev) e (selectedImage prev)
    (imagePreviewUrl prev) (textInput prev) (isGeneratingImage prev)
    (marketingImageUrl prev).

Definition set_loading (prev : AppState) : AppState :=
  mkState LOADING (data prev) None (selectedImage prev)
    (imagePreviewUrl prev) (textInput prev) false None.

Definition set_success (result : JSValue) (prev : AppState) : AppState :=
  mkState SUCCESS result (error prev) (selectedImage prev)
    (imagePreviewUrl prev) (textInput prev) (isGeneratingImage prev)
    (marketingImageUrl prev).

Definition set_failed (message : jsstring) (prev : AppState) : AppState :=
  mkState ERROR (data prev) (Some message) (selectedImage prev)
    (imagePreviewUrl prev) (textInput prev) (isGeneratingImage prev)
    (marketingImageUrl prev).

Definition set_generating (b : bool) (prev : AppState) : AppState :=
  mkState (status prev) (data prev) (error prev) (selectedImage prev)
    (imagePreviewUrl prev) (textInput prev) b (marketingImageUrl prev).

Definition set_image (imageUrl : jsstring) (prev : AppState) : AppState :=
  mkState (status prev) (data prev) (error prev) (selectedImage prev)
    (imagePreviewUrl prev) (textInput prev) false (Some imageUrl).

(** The test [!state.selectedImage && !state.textInput.trim()]. *)
Definition nothing_entered (state : AppState) : bool :=
  negb (isSome (selectedImage state)) && negb (truthy (trim (textInput state))).

(** [handleGenerate], run with the rendered [state]. *)
Definition handleGenerate (state : AppState) (w : World) : list step :=
  if nothing_entered state
  then
    [SetState (set_error
       (Some (lit "Please upload an image or enter a description first.")))]
  else
    SetState set_loading ::
    let (r, t) := generateProductContent (selectedImage state) (textInput state) w in
    map (fun e => Do (Service e)) t ++
    match r with
    | Returns result => [SetState (set_success result); Do ScrollToTop]
    | Throws err =>
        [SetState (set_failed
           (match message_of err with
            | Some ((_ :: _) as m) => m
            | _ => lit "Something went wrong. Please try again."
            end))]
    end.

(** [handleGenerateImage], run with the rendered [state]. *)
Definition handleGenerateImage (state : AppState) (editInstruction : jsstring)
    (w : World) : list step :=
  if negb (ToBoolean (data state)) then []
  else
    SetState (set_generating true) ::
    let (r, t) :=
      generateLifestyleImage_of (selectedImage state) (data state)
        editInstruction w
    in
    map (fun e => Do (Service e)) t ++
    match r with
    | Returns imageUrl => [SetState (set_image imageUrl)]
    | Throws err =>
        [Do (Alert (lit "Could not generate image: "
                    ++ match message_of err with
                       | Some m => m
                       | None => lit "undefined"
                       end));
         SetState (set_generating false)]
    end.

(** The state after the steps of a handler, none other interleaved, and the
    events they performed. *)
Fixpoint run (steps : list step) (s : AppState) : AppState * list ui_event :=
  match steps with
  | [] => (s, [])
  | SetState f :: rest => run rest (f s)
  | Do e :: rest => let (s', t) := run rest s in (s', e :: t)
  end.

Definition updates (steps : list step) : list (AppState -> AppState) :=
  flat_map (fun st => match st with SetState f => [f] | Do _ => [] end) steps.

Definition events (steps : list step) : list ui_event :=
  flat_map (fun st => match st with SetState _ => [] | Do e => [e] end) steps.

Definition service_calls (steps : list step) : nat :=
  List.length
    (filter (fun e => match e with Service (Sent _ _) => true | _ => false end)
       (events steps)).

End App.

(* ================================================================== *)
(** * [components/ResultCard]: [handleDownload] *)
(* ================================================================== *)

Module ResultCard.
Import JS.

(** What the browser answers during a composition. *)
Record Browser : Type := mkBrowser {
  (* loading an image from a URL: its natural width and height once it has
     loaded, [None] when the load fails *)
  load_image : jsstring -> option (N * N);
  (* [canvas.getContext('2d')] is not null *)
  context2d : bool;
  (* [ctx.roundRect] exists *)
  has_roundRect : bool;
  (* [ctx.measureText(text).width] under [bold <px>px Inter, sans-serif] *)
  measureText : number -> jsstring -> number;
  toLowerCase : jsstring -> jsstring;
  (* [drawImage] throws [InvalidStateError] for an image whose load failed,
     whatever its numeric arguments; an engine that tests the arguments
     first returns silently when one of them is [NaN] *)
  broken_image_throws : bool
}.

(** The props and the local state the handler reads, at their declared
    types. *)
Record Card : Type := mkCard {
  productName : jsstring;                (* [data.productName] *)
  marketingImageUrl : option jsstring;
  customPrice : jsstring;
  businessName : jsstring;
  logoUrl : option jsstring
}.

Inductive canvas_op : Type :=
| set_width (w : N)
| set_height (h : N)
| drawImage (src : jsstring) (dx dy : number)
| drawImage_scaled (src : jsstring) (dx dy dw dh : number)
| set_shadowColor (c : jsstring)
| set_shadowBlur (b : number)
| set_font (px : number)            (* [`bold ${px}px Inter, sans-serif`] *)
| set_fillStyle (c : jsstring)
| set_textAlign (a : jsstring)
| set_textBaseline (b : jsstring)
| fillText (text : jsstring) (x y : number)
| roundRect (x y w h radii : number)
| fillRect (x y w h : number)
| fill
| download (filename : jsstring).   (* [link.click()] on the canvas's PNG *)

Definition num (z : Z) : number := of_Z z.
Definition dec (n : Z) (d : positive) : number := Fin (n # d).

(** The price tag's geometry for an image [W] x [H] and a measured text
    width. *)
Definition price_fontSize (W : N) : number :=
  Math_max (num 20) (mul (of_N W) (dec 5 100)).
Definition price_padding (W : N) : number := mul (price_fontSize W) (dec 6 10).
Definition pill_width (W : N) (textWidth : number) : number :=
  add textWidth (mul (price_padding W) (num 2)).
Definition pill_height (W : N) : number :=
  add (price_fontSize W) (mul (price_padding W) (dec 15 10)).
Definition pill_x (W : N) (textWidth : number) : number :=
  sub (sub (mul (of_N W) (dec 95 100)) textWidth) (mul (price_padding W) (num 2)).
Definition pill_y (W H : N) : number :=
  sub (sub (mul (of_N H) (dec 95 100)) (price_fontSize W)) (price_padding W).

(** The logo block: the calls made on the context, and the [brandingY] left
    for the business name, [None] when [drawImage] throws. *)
Definition draw_logo (b : Browser) (W : N) (url : jsstring)
    (brandingX brandingY : number) : list canvas_op * option number :=
  let scaleFactor := div (of_N W) (num 1000) in
  let loaded := load_image b url in
  let (lw, lh) := match loaded with
                  | Some (w, h) => (w, h)
                  | None => (0%N, 0%N)
                  end in
  let logoSize := mul (num 120) scaleFactor in
  let aspectRatio := div (of_N lw) (of_N lh) in
  let drawWidth := logoSize in
  let drawHeight := div logoSize aspectRatio in
  let (drawWidth', drawHeight') :=
    if gtb drawHeight logoSize
    then (mul logoSize aspectRatio, logoSize)
    else (drawWidth, drawHeight) in
  let shadow := [ set_shadowColor (lit "rgba(0,0,0,0.5)");
                  set_shadowBlur (mul (num 10) scaleFactor) ] in
  match loaded with
  | None =>
      if broken_image_throws b then (shadow, None)
      else (shadow ++ [drawImage_scaled url brandingX brandingY drawWidth' drawHeight'],
            Some (add brandingY (add drawHeight' (mul (num 20) scaleFactor))))
  | Some _ =>
      (shadow ++ [drawImage_scaled url brandingX brandingY drawWidth' drawHeight'],
       Some (add brandingY (add drawHeight' (mul (num 20) scaleFactor))))
  end.

Definition draw_business_name (W : N) (name : jsstring)
    (brandingX brandingY : number) : list canvas_op :=
  let scaleFactor := div (of_N W) (num 1000) in
  let fontSize := mul (num 40) scaleFactor in
  [ set_font fontSize;
    set_shadowColor (lit "rgba(0,0,0,0.8)");
    set_shadowBlur (mul (num 8) scaleFactor);
    set_fillStyle (lit "white");
    set_textAlign (lit "left");
    set_textBaseline (lit "top");
    fillText name brandingX brandingY ].

Definition draw_price_tag (b : Browser) (W H : N) (price : jsstring)
  : list canvas_op :=
  let fontSize := price_fontSize W in
  let padding := price_padding W in
  let x := mul (of_N W) (dec 95 100) in
  let y := mul (of_N H) (dec 95 100) in
  let textWidth := measureText b fontSize price in
  [ set_font fontSize;
    set_shadowColor (lit "rgba(0,0,0,0.3)");
    set_shadowBlur (num 10);
    set_fillStyle (lit "white");
    (if has_roundRect b
     then roundRect (pill_x W textWidth) (pill_y W H)
            (pill_width W textWidth) (pill_height W) (num 12)
     else fillRect (pill_x W textWidth) (pill_y W H)
            (pill_width W textWidth) (pill_height W));
    fill;
    set_shadowBlur (num 0);
    set_fillStyle (lit "#4f46e5");
    set_textAlign (lit "right");
    set_textBaseline (lit "bottom");
    fillText price (sub x padding) y ].

Definition download_name (b : Browser) (name : jsstring) : jsstring :=
  lit "merchant-ai-" ++ toLowerCase b (replace_ws_runs false name) ++ lit ".png".

(** The body of [img.onload], for a base image [W] x [H]. *)
Definition onload (b : Browser) (c : Card) (src : jsstring) (W H : N)
  : list canvas_op :=
  [set_width W; set_height H] ++
  if negb (context2d b) then []
  else
    let scaleFactor := div (of_N W) (num 1000) in
    let brandingY := mul (num 40) scaleFactor in
    let brandingX := mul (num 40) scaleFactor in
    let (logo_ops, brandingY') :=
      match logoUrl c with
      | Some ((_ :: _) as url) => draw_logo b W url brandingX brandingY
      | _ => ([], Some brandingY)
      end in
    [drawImage src (num 0) (num 0)]
    ++ logo_ops
    ++ match brandingY' with
       | None => []
       | Some y =>
           (if truthy (businessName c)
            then draw_business_name W (businessName c) brandingX y
            else [])
           ++ draw_price_tag b W H (customPrice c)
           ++ [download (download_name b (productName c))]
       end.

(** [handleDownload]: everything done to the canvas and the document, in
    order. *)
Definition handleDownload (b : Browser) (c : Card) : list canvas_op :=
  match marketingImageUrl c with
  | Some ((_ :: _) as src) =>
      match load_image b src with
      | Some (W, H) => onload b c src W H
      | None => []
      end
  | _ => []
  end.

(** ** Reading a trace *)

(** The size of the canvas after [ops]; a new canvas is 300 x 150. *)
Fixpoint canvas_size_from (size : N * N) (ops : list canvas_op) : N * N :=
  match ops with
  | [] => size
  | set_width w :: rest => canvas_size_from (w, snd size) rest
  | set_height h :: rest => canvas_size_from (fst size, h) rest
  | _ :: rest => canvas_size_from size rest
  end.

Definition canvas_size (ops : list canvas_op) : N * N :=
  canvas_size_from (300%N, 150%N) ops.

(** The size of every PNG that [ops] offers for download: the size of the
    canvas when [download] is reached. *)
Fixpoint downloads_from (size : N * N) (ops : list canvas_op) : list (N * N) :=
  match ops with
  | [] => []
  | set_width w :: rest => downloads_from (w, snd size) rest
  | set_height h :: rest => downloads_from (fst size, h) rest
  | download _ :: rest => size :: downloads_from size rest
  | _ :: rest => downloads_from size rest
  end.

Definition downloads (ops : list canvas_op) : list (N * N) :=
  downloads_from (300%N, 150%N) ops.

(** The widths of the price-tag rectangles that [ops] draws. *)
Definition pill_widths (ops : list canvas_op) : list number :=
  flat_map (fun op => match op with
                      | roundRect _ _ w _ _ | fillRect _ _ w _ => [w]
                      | _ => []
                      end) ops.

(** Whether a drawing call has finite arguments only.  The 2D context
    returns at once, drawing nothing, from [drawImage], [fillText],
    [roundRect] and [fillRect] when an argument is [NaN] or infinite (HTML
    Standard, "The 2D rendering context"). *)
Definition paints (op : canvas_op) : bool :=
  match op with
  | drawImage _ dx dy => isFinite dx && isFinite dy
  | drawImage_scaled _ dx dy dw dh =>
      isFinite dx && isFinite dy && isFinite dw && isFinite dh
  | fillText _ x y => isFinite x && isFinite y
  | roundRect x y w h _ | fillRect x y w h =>
      isFinite x && isFinite y && isFinite w && isFinite h
  | _ => false
  end.

(** The texts that [ops] paints on the canvas. *)
Definition painted_texts (ops : list canvas_op) : list jsstring :=
  flat_map (fun op => match op with
                      | fillText t _ _ => if paints op then [t] else []
                      | _ => []
                      end) ops.

(** [x <= y] on numbers, as a proposition. *)
Definition le (x y : number) : Prop := leb x y = true.

(** The calls that change the size of the canvas. *)
Definition resizes (op : canvas_op) : bool :=
  match op with
  | set_width _ | set_height _ => true
  | _ => false
  end.

(** The card after the user typed [price] in the price field. *)
Definition setCustomPrice (price : jsstring) (c : Card) : Card :=
  mkCard (productName c) (marketingImageUrl c) price (businessName c) (logoUrl c).

End ResultCard.

(* ================================================================== *)
(** * Sample worlds, files and cards *)
(* ================================================================== *)

Module Samples.
Import JS JSON GeminiService App ResultCard.

Definition key : option jsstring := Some (lit "secret").

(** A service that is down. *)
Definition unreachable : Request -> outcome Response :=
  fun _ => Throws (ServiceFailure (lit "fetch failed")).

(** A service that answers every request with the text [body]. *)
Definition answers_text (body : jsstring) : Request -> outcome Response :=
  fun _ => Returns (mkResponse (Some body) None).

(** A service that answers every request with one candidate made of
    [parts]. *)
Definition answers_parts (parts : list Part) : Request -> outcome Response :=
  fun _ => Returns (mkResponse None (Some [mkCandidate (Some (mkContent (Some parts)))])).

(** The wording of V8 for a value without a primitive value. *)
Definition no_primitive : jsstring -> JSValue -> jsstring :=
  fun _ _ => lit "Cannot convert object to primitive value".

Definition no_credential : World :=
  mkWorld None unreachable (fun _ => []) no_primitive.
Definition offline : World :=
  mkWorld key unreachable (fun _ => []) no_primitive.

(** The service returns the empty object. *)
Definition empty_object_world : World :=
  mkWorld key (answers_text (lit "{}")) (fun _ => []) no_primitive.

Definition member (k v : string) : jsstring :=
  dquote ++ lit k ++ dquote ++ lit ":" ++ dquote ++ lit v ++ dquote.

Definition listing_body : jsstring :=
  lit "{" ++ member "productName" "Blue Kaftan" ++ lit ","
  ++ member "shortDescription" "Hand-made." ++ lit ","
  ++ member "longDescription" "A hand-made blue kaftan." ++ lit ","
  ++ member "suggestedPrice" "15,000 - 20,000" ++ lit ","
  ++ dquote ++ lit "seoKeywords" ++ dquote ++ lit ":["
  ++ dquote ++ lit "kaftan" ++ dquote ++ lit "],"
  ++ dquote ++ lit "hashtags" ++ dquote ++ lit ":[],"
  ++ member "socialMediaPost" "New in!" ++ lit ","
  ++ member "targetAudience" "Men" ++ lit "}".

Definition listing : JSValue :=
  JObject
    [ (lit "productName", JString (lit "Blue Kaftan"));
      (lit "shortDescription", JString (lit "Hand-made."));
      (lit "longDescription", JString (lit "A hand-made blue kaftan."));
      (lit "suggestedPrice", JString (lit "15,000 - 20,000"));
      (lit "seoKeywords", JArray [JString (lit "kaftan")]);
      (lit "hashtags", JArray []);
      (lit "socialMediaPost", JString (lit "New in!"));
      (lit "targetAudience", JString (lit "Men")) ].

(** The service returns a full listing. *)
Definition listing_world : World :=
  mkWorld key (answers_text listing_body) (fun _ => []) no_primitive.

Definition text_part : Part := mkPart (Some (lit "Here is your image.")) None.
Definition png_part : Part := mkPart None (Some (mkBlob (Some (lit "iVBORw0KGgo=")) None)).
Definition jpeg_part : Part :=
  mkPart None (Some (mkBlob (Some (lit "/9j/4AAQ")) (Some (lit "image/jpeg")))).

(** The service answers in words only. *)
Definition words_only_world : World :=
  mkWorld key (answers_parts [text_part]) (fun _ => []) no_primitive.

(** The service answers with words, then a JPEG, then a PNG. *)
Definition image_world : World :=
  mkWorld key (answers_parts [text_part; jpeg_part; png_part]) (fun _ => []) no_primitive.

Definition photo : File :=
  mkFile (lit "image/jpeg") (Some (lit "data:image/jpeg;base64,/9j/4AAQ")).

(** A session showing [listing], with no image selected. *)
Definition showing_listing : AppState :=
  mkState SUCCESS listing None None None (lit "blue kaftan") false
    (Some (lit "data:image/png;base64,AAAA")).

(** A session where only a space was typed. *)
Definition typed_a_space : AppState :=
  mkState IDLE JNull None None None [32%N] false None.

(** A browser in which the generated image loads as 1000 x 800, the logo
    [logo.png] as 200 x 400 and nothing else loads; a text measures ten
    pixels per code unit. *)
Definition browser (throws : bool) : Browser :=
  mkBrowser
    (fun url =>
       if streq url (lit "generated.png") then Some (1000%N, 800%N)
       else if streq url (lit "logo.png") then Some (200%N, 400%N)
       else None)
    true true
    (fun _ text => of_N (10 * N.of_nat (List.length text)))
    (fun s => s)
    throws.

(** A card branded "Shop" whose logo cannot be loaded. *)
Definition card_with_broken_logo : Card :=
  mkCard (lit "Blue Kaftan") (Some (lit "generated.png")) (lit "5,000")
    (lit "Shop") (Some (lit "missing.png")).

Definition card_without_image : Card :=
  mkCard (lit "Blue Kaftan") None (lit "5,000") (lit "Shop") (Some (lit "logo.png")).

Definition plain_card (price : string) : Card :=
  mkCard (lit "Blue Kaftan") (Some (lit "generated.png")) (lit price) [] None.

End Samples.

(* ================================================================== *)
(** * [components/FileUpload] *)
(* ================================================================== *)

Module FileUpload.
Import JS GeminiService.

(** [s.startsWith(p)]. *)
Fixpoint startsWith (p s : jsstring) : bool :=
  match p, s with
  | [], _ => true
  | x :: p', y :: s' => N.eqb x y && startsWith p' s'
  | _ :: _, [] => false
  end.

(** What a handler of the drop zone does: the value it gives [isDragging],
    when it sets it, and the file it passes to [onFileSelect], when it
    calls it. *)
Record reaction : Type := mkReaction {
  dragging : option bool;
  selected : option File
}.

Definition handleDragOver : reaction := mkReaction (Some true) None.
Definition handleDragLeave : reaction := mkReaction (Some false) None.

(** [handleDrop], for the files of the drop in order. *)
Definition handleDrop (files : list File) : reaction :=
  mkReaction (Some false)
    (match files with
     | file :: _ =>
         if startsWith (lit "image/") (file_type file) then Some file else None
     | [] => None
     end).

(** [handleFileChange], for the files picked in the dialog. *)
Definition handleFileChange (files : list File) : reaction :=
  mkReaction None
    (match files with
     | file :: _ => Some file
     | [] => None
     end).

End FileUpload.

(* ================================================================== *)
(** * [App]: the other handlers *)
(* ================================================================== *)

Module AppControls.
Import JS JSON GeminiService App.

(** [handleFileSelect]; [createObjectURL] is [URL.createObjectURL]. *)
Definition handleFileSelect (createObjectURL : File -> jsstring) (file : File)
  : list step :=
  let previewUrl := createObjectURL file in
  [SetState (fun prev =>
     mkState (status prev) (data prev) None (Some file) (Some previewUrl)
       (textInput prev) (isGeneratingImage prev) (marketingImageUrl prev))].

(** [handleTextChange], for the new value of the text area. *)
Definition handleTextChange (value : jsstring) : list step :=
  [SetState (fun prev =>
     mkState (status prev) (data prev) (error prev) (selectedImage prev)
       (imagePreviewUrl prev) value (isGeneratingImage prev)
       (marketingImageUrl prev))].

Definition resetApp : list step :=
  [SetState (fun _ => mkState IDLE JNull None None None [] false None);
   Do ScrollToTop].

(** What the drop zone does to the session: its reaction handed to
    [handleFileSelect]. *)
Definition onFileSelect (createObjectURL : File -> jsstring)
    (r : FileUpload.reaction) : list step :=
  match FileUpload.selected r with
  | Some file => handleFileSelect createObjectURL file
  | None => []
  end.

End AppControls.

(* ================================================================== *)
(** * [components/ResultCard]: the controls around the canvas *)
(* ================================================================== *)

Module ResultCardControls.
Import JS JSON GeminiService ResultCard.

(** The class [[0-9.,]]. *)
Definition price_char (c : codeunit) : bool :=
  (N.leb 48 c && N.leb c 57) || N.eqb c 46 || N.eqb c 44.

(** The value shown in the price field:
    [customPrice.replace(/[^0-9.,]/g, '')]. *)
Definition price_field_value (customPrice : jsstring) : jsstring :=
  filter price_char customPrice.

(** The price field's [onChange], for the new value of the field. *)
Definition price_onChange (value : jsstring) (c : Card) : Card :=
  setCustomPrice (naira ++ value) c.

Definition setBusinessName (name : jsstring) (c : Card) : Card :=
  mkCard (productName c) (marketingImageUrl c) (customPrice c) name (logoUrl c).

Definition setLogoUrl (url : option jsstring) (c : Card) : Card :=
  mkCard (productName c) (marketingImageUrl c) (customPrice c) (businessName c) url.

(** [handleLogoUpload], for the files picked in the dialog. *)
Definition handleLogoUpload (createObjectURL : File -> jsstring)
    (files : list File) (c : Card) : Card :=
  match files with
  | file :: _ => setLogoUrl (Some (createObjectURL file)) c
  | [] => c
  end.



(** The "Generate AI Photo" button: [onGenerateImage()], the instruction
    taking its default. *)
Definition generate_click (onGenerateImage : jsstring -> list App.step)
  : list App.step :=
  onGenerateImage [].

(** A hashtag as displayed: [tag.startsWith('#') ? tag : `#${tag}`]. *)
Definition display_tag (tag : jsstring) : jsstring :=
  if FileUpload.startsWith (lit "#") tag then tag else lit "#" ++ tag.

(** [x] and [y] are the same number: [x <= y && y <= x]. *)
Definition same (x y : number) : Prop := le x y /\ le y x.

(** The requests that the steps of a handler send. *)
Definition sent_requests (steps : list App.step) : list Request :=
  flat_map (fun st => match st with
                      | App.Do (App.Service (Sent _ req)) => [req]
                      | _ => []
                      end) steps.

(** The rectangles that [ops] puts on the canvas: origin, width, height. *)
Definition rectangles (ops : list canvas_op)
  : list (number * number * number * number) :=
  flat_map (fun op => match op with
                      | roundRect x y w h _ | fillRect x y w h => [(x, y, w, h)]
                      | _ => []
                      end) ops.

Definition is_download (op : canvas_op) : bool :=
  match op with download _ => true | _ => false end.

(** The file names that [ops] offers for download. *)
Definition download_names (ops : list canvas_op) : list jsstring :=
  flat_map (fun op => match op with download name => [name] | _ => [] end) ops.


(** The texts of the text parts of a request. *)
Definition request_texts (req : Request) : list jsstring :=
  flat_map (fun p => match part_text p with Some t => [t] | None => [] end)
    (contents req).

End ResultCardControls.

(* ================================================================== *)
(** * More samples *)
(* ================================================================== *)

Module MoreSamples.
Import JS JSON GeminiService App ResultCard Samples.

(** A file whose read fails. *)
Definition unreadable_photo : File := mkFile (lit "image/png") None.

(** A session showing [listing] whose selected image cannot be read. *)
Definition session_with_unreadable_photo : AppState :=
  mkState SUCCESS listing None (Some unreadable_photo) None (lit "blue kaftan")
    false None.

Definition manual : File :=
  mkFile (lit "application/pdf") (Some (lit "data:application/pdf;base64,JVBERi0=")).

(** An answer that is well-formed JSON and no listing: the name is an
    object with a member [toString], the description a number. *)
Definition odd_body : jsstring :=
  lit "{" ++ dquote ++ lit "productName" ++ dquote ++ lit ":{"
  ++ dquote ++ lit "toString" ++ dquote ++ lit ":1},"
  ++ dquote ++ lit "shortDescription" ++ dquote ++ lit ":1.50e1}".

Definition odd_listing : JSValue :=
  JObject
    [ (lit "productName", JObject [(lit "toString", JNumber (lit "1"))]);
      (lit "shortDescription", JNumber (lit "1.50e1")) ].

(** A session showing [odd_listing]. *)
Definition showing_odd_listing : AppState :=
  mkState SUCCESS odd_listing None None None (lit "blue kaftan") false None.

(** The object URL the browser makes for a file: here one per media type. *)
Definition object_url (f : File) : jsstring := lit "blob:" ++ file_type f.

(** A card with a logo that loads and a business name. *)
Definition branded_card : Card :=
  mkCard (lit "Blue  Kaftan XL") (Some (lit "generated.png")) (lit "5,000")
    (lit "Shop") (Some (lit "logo.png")).

End MoreSamples.

Unset Implicit Arguments.

(* ================================================================== *)
(** * Tactics for runs of the clients *)
(* ================================================================== *)

Import JS JSON GeminiService.

Ltac run_eff :=
  unfold generateProductContent, generateLifestyleImage, fileToGenerativePart,
    bind, try_catch, ret, throw, process_env_API_KEY, models_generateContent,
    console_error, JSON_parse in *;
  cbv beta in *.

(** Case analysis on the innermost test that blocks the run in [H]. *)
Ltac step_in H :=
  match type of H with
  | context [match ?x with _ => _ end] =>
      match x with
      | context [match _ with _ => _ end] => fail 1
      | _ => let E := fresh "E" in destruct x eqn:E; cbn in H
      end
  | context [if ?x then _ else _] =>
      match x with
      | context [match _ with _ => _ end] => fail 1
      | _ => let E := fresh "E" in destruct x eqn:E; cbn in H
      end
  end.

Ltac run_in H := run_eff; repeat (step_in H; try discriminate).

(** Which request a trace of at most one request holds. *)
Ltac find_sent :=
  repeat match goal with
         | H : In _ (_ :: _) |- _ => destruct H as [H | H]
         | H : In _ [] |- _ => destruct H
         | H : Sent _ _ = Sent _ _ |- _ => injection H as <- <-
         | H : ConsoleError _ _ = Sent _ _ |- _ => discriminate H
         end.

(* ================================================================== *)
(** * [JSON.parse] reads every text to the end *)
(* ================================================================== *)

Section ParserFuel.
Import JS JSON.

Lemma skip_ws_length : forall s, List.length (skip_ws s) <= List.length s.
Proof.
  induction s as [|c s IH]; cbn; [lia|]. destruct (is_ws c); cbn; lia.
Qed.

Lemma string_chars_length :
  forall n s str rest,
    List.length s <= n ->
    string_chars s = Some (str, rest) ->
    List.length rest < List.length s.
Proof.
  induction n as [|n IH]; intros s str rest Hn H.
  - destruct s; [discriminate | cbn in Hn; lia].
  - destruct s as [|c r]; [discriminate|]. cbn [string_chars] in H.
    cbn [List.length] in *.
    destruct (N.eqb c 34).
    { injection H as _ <-. lia. }
    destruct (N.eqb c 92).
    + destruct r as [|e r1]; [discriminate|].
      destruct (N.eqb e (ch "u")).
      * destruct r1 as [|h1 [|h2 [|h3 [|h4 r2]]]]; try discriminate.
        destruct (hex4 h1 h2 h3 h4); [|discriminate].
        destruct (string_chars r2) as [[str' rest']|] eqn:E; [|discriminate].
        injection H as _ <-. apply IH in E; cbn [List.length] in *; lia.
      * destruct (simple_escape e); [|discriminate].
        destruct (string_chars r1) as [[str' rest']|] eqn:E; [|discriminate].
        injection H as _ <-. apply IH in E; cbn [List.length] in *; lia.
    + destruct (N.ltb c 32); [discriminate|].
      destruct (string_chars r) as [[str' rest']|] eqn:E; [|discriminate].
      injection H as _ <-. apply IH in E; lia.
Qed.

Lemma digits_length :
  forall s, List.length (snd (digits s)) <= List.length s.
Proof.
  induction s as [|c s IH]; cbn; [lia|].
  destruct (is_digit c); cbn; [|lia].
  destruct (digits s). cbn in *. lia.
Qed.

Lemma number_literal_length :
  forall s l rest,
    number_literal s = Some (l, rest) -> List.length rest < List.length s.
Proof.
  intros s l rest H. unfold number_literal in H.
  destruct (opt_minus s) as [m s1] eqn:Em.
  assert (H1 : List.length s1 <= List.length s).
  { unfold opt_minus in Em. destruct s as [|c r]; [injection Em as _ <-; lia|].
    destruct (N.eqb c (ch "-")); injection Em as _ <-; cbn; lia. }
  destruct (int_part s1) as [[i s2]|] eqn:Ei; [|discriminate].
  assert (H2 : List.length s2 < List.length s1).
  { unfold int_part in Ei. destruct s1 as [|c r]; [discriminate|].
    destruct (N.eqb c 48); [injection Ei as _ <-; cbn; lia|].
    destruct (is_digit c); [|discriminate].
    pose proof (digits_length r) as Hd. destruct (digits r).
    injection Ei as _ <-. cbn in *. lia. }
  destruct (frac_part s2) as [[f s3]|] eqn:Ef; [|discriminate].
  assert (H3 : List.length s3 <= List.length s2).
  { unfold frac_part in Ef. destruct s2 as [|c r]; [injection Ef as _ <-; lia|].
    destruct (N.eqb c (ch ".")); [|injection Ef as _ <-; lia].
    pose proof (digits_length r) as Hd. destruct (digits r) as [[|d ds] rest'];
      [discriminate|]. injection Ef as _ <-. cbn in *. lia. }
  destruct (exp_part s3) as [[e s4]|] eqn:Ee; [|discriminate].
  assert (H4 : List.length s4 <= List.length s3).
  { unfold exp_part in Ee. destruct s3 as [|c r]; [injection Ee as _ <-; lia|].
    destruct (N.eqb c (ch "e") || N.eqb c (ch "E")); [|injection Ee as _ <-; lia].
    destruct (exp_sign r) as [sg r1] eqn:Es.
    assert (List.length r1 <= List.length r).
    { unfold exp_sign in Es. destruct r as [|c' r']; [injection Es as _ <-; lia|].
      destruct (N.eqb c' (ch "+") || N.eqb c' (ch "-"));
        injection Es as _ <-; cbn; lia. }
    pose proof (digits_length r1) as Hd. destruct (digits r1) as [[|d ds] rest'];
      [discriminate|]. injection Ee as _ <-. cbn in *. lia. }
  injection H as _ <-. lia.
Qed.

Lemma strip_prefix_length :
  forall p s rest,
    strip_prefix p s = Some rest ->
    List.length rest + List.length p = List.length s.
Proof.
  induction p as [|x p IH]; intros s rest H; cbn in H.
  - injection H as <-. cbn. lia.
  - destruct s as [|y s]; [discriminate|].
    destruct (N.eqb x y); [|discriminate]. apply IH in H. cbn. lia.
Qed.

Lemma keyword_length :
  forall w v s v' rest,
    w <> EmptyString ->
    keyword w v s = Parsed v' rest -> List.length rest < List.length s.
Proof.
  intros w v s v' rest Hw H. unfold keyword in H.
  destruct (strip_prefix (lit w) s) as [rest'|] eqn:E; [|discriminate].
  injection H as _ <-. apply strip_prefix_length in E.
  destruct w; [congruence|]. cbn in E. lia.
Qed.

Lemma keyword_fuel :
  forall w v s, keyword w v s <> OutOfFuel.
Proof.
  intros w v s. unfold keyword. destruct (strip_prefix _ _); discriminate.
Qed.

(** With twice the length of the text as fuel, and one more, the three
    readers never stop for lack of fuel, and what they leave is shorter
    than what they were given. *)
Lemma readers_have_fuel :
  forall fuel,
    (forall s,
        2 * List.length s + 1 <= fuel ->
        parse_value fuel s <> OutOfFuel
        /\ forall v rest, parse_value fuel s = Parsed v rest ->
                          List.length rest < List.length s)
    /\ (forall s acc,
           2 * List.length s + 2 <= fuel ->
           parse_elements fuel s acc <> OutOfFuel
           /\ forall v rest, parse_elements fuel s acc = Parsed v rest ->
                             List.length rest < List.length s)
    /\ (forall s acc,
           2 * List.length s + 2 <= fuel ->
           parse_members fuel s acc <> OutOfFuel
           /\ forall v rest, parse_members fuel s acc = Parsed v rest ->
                             List.length rest < List.length s).
Proof.
  induction fuel as [|fuel (IHv & IHe & IHm)].
  { repeat split; intros; lia. }
  split; [|split].
  - (* parse_value *)
    intros s Hfuel. cbn [parse_value].
    destruct s as [|c r]; [split; [discriminate | intros; discriminate]|].
    cbn [List.length] in Hfuel.
    destruct (N.eqb c (ch "{")).
    { pose proof (skip_ws_length r) as Hws.
      destruct (skip_ws r) as [|c' r']; [split; [discriminate | intros; discriminate]|].
      cbn [List.length] in Hws.
      destruct (N.eqb c' (ch "}")).
      - split; [discriminate|]. intros v rest H. injection H as _ <-.
        cbn [List.length]. lia.
      - destruct (IHm (c' :: r') []) as [Hne Hlen]; [cbn [List.length]; lia|].
        split; [exact Hne|]. intros v rest H. apply Hlen in H.
        cbn [List.length] in *. lia. }
    destruct (N.eqb c (ch "[")).
    { pose proof (skip_ws_length r) as Hws.
      destruct (skip_ws r) as [|c' r']; [split; [discriminate | intros; discriminate]|].
      cbn [List.length] in Hws.
      destruct (N.eqb c' (ch "]")).
      - split; [discriminate|]. intros v rest H. injection H as _ <-.
        cbn [List.length]. lia.
      - destruct (IHe (c' :: r') []) as [Hne Hlen]; [cbn [List.length]; lia|].
        split; [exact Hne|]. intros v rest H. apply Hlen in H.
        cbn [List.length] in *. lia. }
    destruct (N.eqb c 34).
    { destruct (string_chars r) as [[str rest']|] eqn:E;
        [|split; [discriminate | intros; discriminate]].
      split; [discriminate|]. intros v rest H. injection H as _ <-.
      apply (string_chars_length (List.length r)) in E; cbn [List.length]; lia. }
    destruct (N.eqb c (ch "t")).
    { split; [apply keyword_fuel|]. intros v rest H.
      apply keyword_length in H; [exact H | discriminate]. }
    destruct (N.eqb c (ch "f")).
    { split; [apply keyword_fuel|]. intros v rest H.
      apply keyword_length in H; [exact H | discriminate]. }
    destruct (N.eqb c (ch "n")).
    { split; [apply keyword_fuel|]. intros v rest H.
      apply keyword_length in H; [exact H | discriminate]. }
    destruct (number_literal (c :: r)) as [[l rest']|] eqn:E;
      [|split; [discriminate | intros; discriminate]].
    split; [discriminate|]. intros v rest H. injection H as _ <-.
    now apply number_literal_length in E.
  - (* parse_elements *)
    intros s acc Hfuel. cbn [parse_elements].
    destruct (IHv s) as [Hne Hlen]; [lia|].
    destruct (parse_value fuel s) as [| |v r] eqn:E;
      [congruence | split; [discriminate | intros; discriminate] |].
    specialize (Hlen v r eq_refl).
    pose proof (skip_ws_length r) as Hws.
    destruct (skip_ws r) as [|c r']; [split; [discriminate | intros; discriminate]|].
    cbn [List.length] in Hws.
    destruct (N.eqb c (ch ",")).
    { pose proof (skip_ws_length r') as Hws'.
      destruct (IHe (skip_ws r') (v :: acc)) as [Hne' Hlen']; [lia|].
      split; [exact Hne'|]. intros v' rest H. apply Hlen' in H. lia. }
    destruct (N.eqb c (ch "]")); [|split; [discriminate | intros; discriminate]].
    split; [discriminate|]. intros v' rest H. injection H as _ <-. lia.
  - (* parse_members *)
    intros s acc Hfuel. cbn [parse_members].
    destruct s as [|q r]; [split; [discriminate | intros; discriminate]|].
    cbn [List.length] in Hfuel.
    destruct (N.eqb q 34); [|split; [discriminate | intros; discriminate]].
    destruct (string_chars r) as [[key r1]|] eqn:Ekey;
      [|split; [discriminate | intros; discriminate]].
    apply (string_chars_length (List.length r)) in Ekey; [|lia].
    pose proof (skip_ws_length r1) as Hws1.
    destruct (skip_ws r1) as [|c1 r2]; [split; [discriminate | intros; discriminate]|].
    cbn [List.length] in Hws1.
    destruct (N.eqb c1 (ch ":")); [|split; [discriminate | intros; discriminate]].
    pose proof (skip_ws_length r2) as Hws2.
    destruct (IHv (skip_ws r2)) as [Hne Hlen]; [lia|].
    destruct (parse_value fuel (skip_ws r2)) as [| |v r3] eqn:E;
      [congruence | split; [discriminate | intros; discriminate] |].
    specialize (Hlen v r3 eq_refl).
    pose proof (skip_ws_length r3) as Hws3.
    destruct (skip_ws r3) as [|c2 r4]; [split; [discriminate | intros; discriminate]|].
    cbn [List.length] in Hws3.
    destruct (N.eqb c2 (ch ",")).
    { pose proof (skip_ws_length r4) as Hws4.
      destruct (IHm (skip_ws r4) ((key, v) :: acc)) as [Hne' Hlen']; [lia|].
      split; [exact Hne'|]. intros v' rest H. apply Hlen' in H.
      cbn [List.length]. lia. }
    destruct (N.eqb c2 (ch "}")); [|split; [discriminate | intros; discriminate]].
    split; [discriminate|]. intros v' rest H. injection H as _ <-.
    cbn [List.length]. lia.
Qed.

(** [JSON.parse] gives [None] for malformed texts only: the reader it runs
    never stops for lack of fuel. *)
Lemma parse_has_fuel :
  forall text, parse_value (fuel_for (skip_ws text)) (skip_ws text) <> OutOfFuel.
Proof.
  intros text. apply (readers_have_fuel (fuel_for (skip_ws text))).
  unfold fuel_for. lia.
Qed.

End ParserFuel.

(* ================================================================== *)
(** * Properties of the generation clients *)
(* ================================================================== *)

(** ** The texts of the module *)

(** The errors of the module are pairwise distinct where it matters: the
    missing-key errors are not any other error, and neither generic error
    is the error it stands for. *)
Lemma errors_are_distinct :
  missing_key_content <> missing_input
  /\ missing_key_content <> content_failed
  /\ content_failed <> missing_input
  /\ missing_key_image <> no_image
  /\ missing_key_image <> image_failed
  /\ image_failed <> no_image.
Proof. repeat split; discriminate. Qed.

(** The edit directive quotes the instruction. *)
Lemma edit_directive_quotes :
  forall before editInstruction rest,
    substring_of editInstruction (before ++ edit_directive editInstruction ++ rest).
Proof.
  intros before editInstruction rest. unfold substring_of, edit_directive.
  exists (before ++ [10%N; 10%N] ++ lit "IMPORTANT EDIT INSTRUCTION: ").
  eexists. repeat rewrite <- app_assoc. reflexivity.
Qed.

(** The texts of the content prompt, as the operation writes them. *)
Lemma content_prompt_text :
  content_prompt
  = lit "You are an expert e-commerce copywriter and sales strategist for the Nigerian market. Analyze the input (image and/or text) and generate a high-converting product listing.".
Proof. reflexivity. Qed.

Lemma user_context_text :
  forall textInput,
    user_context textInput
    = [10%N; 10%N] ++ lit "User provided context: " ++ dquote ++ textInput
      ++ dquote ++ lit ". Use this context to refine the description.".
Proof. reflexivity. Qed.

(** The texts of the image prompt, as the operation writes them. *)
Lemma lifestyle_prompt_text :
  forall productName description,
    lifestyle_prompt productName description
    = lit "Create a high-quality, professional Instagram lifestyle photography shot for the product "
      ++ dquote ++ productName ++ dquote ++ lit ". " ++ [10%N]
      ++ lit "  Context/Description: " ++ description ++ lit ". " ++ [10%N]
      ++ lit "  The image should be aesthetically pleasing, bright, and suitable for social media marketing. "
      ++ [10%N]
      ++ lit "  Aspect Ratio 1:1.".
Proof. reflexivity. Qed.

Lemma edit_directive_text :
  forall editInstruction,
    edit_directive editInstruction
    = [10%N; 10%N] ++ lit "IMPORTANT EDIT INSTRUCTION: " ++ editInstruction
      ++ lit ". Modify the image to strictly follow this instruction (e.g., change color, background, or setting).".
Proof. reflexivity. Qed.

Lemma preserve_directive_text :
  preserve_directive
  = lit " preserve the key visual details of the product in the input image but place it in a better background/setting.".
Proof. reflexivity. Qed.

(** From here on the texts are kept folded. *)
Opaque lit content_prompt user_context lifestyle_prompt edit_directive
  preserve_directive.

Section Credential.
Import Samples.

(** ** The credential test *)

Lemma generateProductContent_without_key :
  forall imageFile textInput w,
    truthy_opt (API_KEY w) = false ->
    generateProductContent imageFile textInput w = (Throws missing_key_content, []).
Proof.
  intros imageFile textInput w Hkey. run_eff. now rewrite Hkey.
Qed.

Lemma generateLifestyleImage_without_key :
  forall originalImage productName description editInstruction w,
    truthy_opt (API_KEY w) = false ->
    generateLifestyleImage originalImage productName description editInstruction w
    = (Throws missing_key_image, []).
Proof.
  intros originalImage productName description editInstruction w Hkey.
  run_eff. now rewrite Hkey.
Qed.

(** C6: while [process.env.API_KEY] is absent, both generation operations
    throw their missing-key error at once, and the transport is never
    called. *)
Theorem missing_credential_fails_both_operations :
  forall w,
    API_KEY w = None ->
    (forall imageFile textInput,
        fst (generateProductContent imageFile textInput w) = Throws missing_key_content
        /\ transport_calls (snd (generateProductContent imageFile textInput w)) = 0)
    /\
    (forall originalImage productName description editInstruction,
        fst (generateLifestyleImage originalImage productName description
               editInstruction w) = Throws missing_key_image
        /\ transport_calls
             (snd (generateLifestyleImage originalImage productName description
                     editInstruction w)) = 0).
Proof.
  intros w Hkey.
  assert (Hfalse : truthy_opt (API_KEY w) = false) by now rewrite Hkey.
  split; intros.
  - now rewrite generateProductContent_without_key.
  - now rewrite generateLifestyleImage_without_key.
Qed.

Lemma missing_credential_fails_both_operations_witness :
  (forall imageFile textInput,
      fst (generateProductContent imageFile textInput no_credential)
      = Throws missing_key_content
      /\ transport_calls (snd (generateProductContent imageFile textInput no_credential)) = 0)
  /\
  (forall originalImage productName description editInstruction,
      fst (generateLifestyleImage originalImage productName description
             editInstruction no_credential) = Throws missing_key_image
      /\ transport_calls
           (snd (generateLifestyleImage originalImage productName description
                   editInstruction no_credential)) = 0).
Proof.
  apply (missing_credential_fails_both_operations no_credential). reflexivity.
Defined.

End Credential.

Section InputTest.
Import Samples.

(** ** The input test *)

(** With a key, the input test alone decides whether content generation
    throws [missing_input]. *)
Lemma missing_input_iff_no_input :
  forall imageFile textInput w,
    truthy_opt (API_KEY w) = true ->
    (fst (generateProductContent imageFile textInput w) = Throws missing_input
     <-> no_input imageFile textInput = true).
Proof.
  intros imageFile textInput w Hkey. split.
  - intros H. destruct (no_input imageFile textInput) eqn:Hgate; [reflexivity|].
    exfalso. run_eff. rewrite Hkey, Hgate in H. cbn [negb] in H.
    repeat (step_in H; try discriminate).
    all: injection H as H; now apply errors_are_distinct in H.
  - intros Hgate. run_eff. now rewrite Hkey, Hgate.
Qed.

(** C2: where a key is set, the call with no image and the empty text
    throws the input error, "Please provide an image or text description.",
    and has done nothing by then: its trace is empty, so the transport was
    not called. *)
Theorem empty_input_fails_before_transport :
  forall w,
    truthy_opt (API_KEY w) = true ->
    fst (generateProductContent None [] w)
    = Throws (Error (lit "Please provide an image or text description."))
    /\ snd (generateProductContent None [] w) = []
    /\ transport_calls (snd (generateProductContent None [] w)) = 0.
Proof.
  intros w Hkey. run_eff. rewrite Hkey. repeat split.
Qed.

Lemma empty_input_fails_before_transport_witness :
  fst (generateProductContent None [] offline)
  = Throws (Error (lit "Please provide an image or text description."))
  /\ snd (generateProductContent None [] offline) = []
  /\ transport_calls (snd (generateProductContent None [] offline)) = 0.
Proof.
  apply (empty_input_fails_before_transport offline). reflexivity.
Defined.

(** Without a key the same call stops one test earlier, on the missing-key
    error of the credential test, and the transport is not called either. *)
Lemma empty_input_without_key :
  forall w,
    truthy_opt (API_KEY w) = false ->
    generateProductContent None [] w = (Throws missing_key_content, []).
Proof.
  intros w Hkey. now apply generateProductContent_without_key.
Qed.

End InputTest.

Section ContentResponse.
Import Samples.

(** C1, as amended: with a key, an input, and an image that is absent or
    readable, the call sends one request and its outcome is read off the
    answer alone.  A failed request, an absent or empty body and a body that
    is not JSON each make it throw the one generic error, the cause going
    to the console; any body that is well-formed JSON makes it return the
    parsed value as it is, whatever its fields: the value is checked
    against nothing. *)
Theorem generateProductContent_returns_the_parsed_body :
  forall imageFile textInput w,
    truthy_opt (API_KEY w) = true ->
    no_input imageFile textInput = false ->
    (forall f, imageFile = Some f -> file_dataURL f <> None) ->
    exists ai req,
      generateProductContent imageFile textInput w
      = match generateContent w req with
        | Throws e =>
            (Throws (Error (lit "Failed to generate content. Please try again.")),
             [Sent ai req; ConsoleError (lit "Gemini API Error:") e])
        | Returns resp =>
            match response_text resp with
            | None | Some [] =>
                (Throws (Error (lit "Failed to generate content. Please try again.")),
                 [Sent ai req;
                  ConsoleError (lit "Gemini API Error:")
                    (Error (lit "No response generated"))])
            | Some body =>
                match JSON.parse body with
                | None =>
                    (Throws (Error (lit "Failed to generate content. Please try again.")),
                     [Sent ai req;
                      ConsoleError (lit "Gemini API Error:")
                        (SyntaxError (syntax_message w body))])
                | Some v => (Returns v, [Sent ai req])
                end
            end
        end.
Proof.
  intros imageFile textInput w Hkey Hgate Hfile.
  exists (mkClient (API_KEY w)).
  destruct imageFile as [f|].
  - specialize (Hfile f eq_refl).
    destruct (file_dataURL f) as [url|] eqn:Hurl; [|congruence].
    exists (mkRequest content_model
              [mkPart (Some (content_prompt
                             ++ (if truthy textInput
                                 then user_context textInput else []))) None;
               mkPart None
                 (Some (mkBlob (split_comma_1 url) (Some (file_type f))))]
              content_config).
    run_eff. rewrite Hkey, Hgate, Hurl. cbn [negb].
    destruct (generateContent w _) as [resp|e]; [|reflexivity].
    destruct (response_text resp) as [[|c body]|]; try reflexivity.
    destruct (parse (c :: body)); reflexivity.
  - exists (mkRequest content_model
              [mkPart (Some (content_prompt
                             ++ (if truthy textInput
                                 then user_context textInput else []))) None]
              content_config).
    run_eff. rewrite Hkey, Hgate. cbn [negb].
    destruct (generateContent w _) as [resp|e]; [|reflexivity].
    destruct (response_text resp) as [[|c body]|]; try reflexivity.
    destruct (parse (c :: body)); reflexivity.
Qed.

Lemma generateProductContent_returns_the_parsed_body_witness :
  exists ai req,
    generateProductContent None (lit "blue kaftan") listing_world
    = match generateContent listing_world req with
      | Throws e =>
          (Throws (Error (lit "Failed to generate content. Please try again.")),
           [Sent ai req; ConsoleError (lit "Gemini API Error:") e])
      | Returns resp =>
          match response_text resp with
          | None | Some [] =>
              (Throws (Error (lit "Failed to generate content. Please try again.")),
               [Sent ai req;
                ConsoleError (lit "Gemini API Error:")
                  (Error (lit "No response generated"))])
          | Some body =>
              match JSON.parse body with
              | None =>
                  (Throws (Error (lit "Failed to generate content. Please try again.")),
                   [Sent ai req;
                    ConsoleError (lit "Gemini API Error:")
                      (SyntaxError (syntax_message listing_world body))])
              | Some v => (Returns v, [Sent ai req])
              end
          end
      end.
Proof.
  apply (generateProductContent_returns_the_parsed_body
           None (lit "blue kaftan") listing_world).
  - reflexivity.
  - reflexivity.
  - discriminate.
Defined.

(** C1, as stated, fails: the service answers [{}], the call returns, and
    the returned record has none of the eight fields. *)
Lemma generateProductContent_returns_an_empty_record :
  generateProductContent None (lit "blue kaftan") empty_object_world
  = (Returns (JObject []),
     [Sent (mkClient key)
        (mkRequest content_model
           [mkPart (Some (content_prompt ++ user_context (lit "blue kaftan"))) None]
           content_config)])
  /\ is_GeneratedProductContent (JObject []) = false
  /\ get (JObject []) (lit "productName") = None.
Proof. vm_compute. repeat split. Qed.

(** What does make the call throw: a failed request, an absent or empty
    body, a body that is not JSON.  The caller sees one error for all. *)
Lemma generateProductContent_failures :
  forall imageFile textInput w ai req r t,
    generateProductContent imageFile textInput w = (r, t) ->
    In (Sent ai req) t ->
    match generateContent w req with
    | Throws _ => r = Throws content_failed
    | Returns resp =>
        match response_text resp with
        | None | Some [] => r = Throws content_failed
        | Some body =>
            match JSON.parse body with
            | None => r = Throws content_failed
            | Some v => r = Returns v
            end
        end
    end.
Proof.
  intros imageFile textInput w ai req r t H Hin. run_in H.
  all: injection H as <- <-; find_sent.
  all: repeat match goal with
         | E : ?x = _ |- context [match ?x with _ => _ end] => rewrite E
         end; try reflexivity.
Qed.

End ContentResponse.

Section ImageResponse.
Import Samples.

(** A part passes the loop's test exactly when it has inline data with a
    non-empty payload; the URI is built from its media type, or from
    [image/png] when it declares none. *)
Lemma inline_image_spec :
  forall part uri,
    inline_image part = Some uri <->
    exists data mimeType,
      part_inlineData part = Some (mkBlob (Some data) mimeType)
      /\ data <> []
      /\ uri = lit "data:"
               ++ (if truthy_opt mimeType
                   then match mimeType with Some m => m | None => [] end
                   else lit "image/png")
               ++ lit ";base64," ++ data.
Proof.
  intros part uri. unfold inline_image. split.
  - destruct (part_inlineData part) as [[[[|c data]|] [[|m mime]|]]|];
      try discriminate; intros H; injection H as <-;
      do 2 eexists; (split; [reflexivity|]); (split; [discriminate|]); reflexivity.
  - intros (data & mimeType & -> & Hdata & ->).
    destruct data as [|c data]; [congruence|].
    now destruct mimeType as [[|m mime]|].
Qed.

(** The loop returns the URI of the first part that passes the test. *)
Lemma first_inline_image_first :
  forall pre part post uri,
    Forall (fun p => inline_image p = None) pre ->
    inline_image part = Some uri ->
    first_inline_image (pre ++ part :: post) = Some uri.
Proof.
  induction pre as [|p pre IH]; intros part post uri Hpre Hpart; simpl.
  - now rewrite Hpart.
  - inversion Hpre as [|? ? Hp Hrest]; subst. rewrite Hp. now apply IH.
Qed.

Lemma first_inline_image_none :
  forall parts,
    first_inline_image parts = None <->
    Forall (fun p => inline_image p = None) parts.
Proof.
  induction parts as [|p parts IH]; simpl.
  - split; [constructor | reflexivity].
  - destruct (inline_image p) eqn:Hp.
    + split; [discriminate | intros H; inversion H; congruence].
    + rewrite IH. split; [now constructor | intros H; now inversion H].
Qed.

(** C3, as amended: once the request is sent, an answer in which no part
    carries inline data makes the call throw the same [image_failed] error
    as a failed request does, the [no_image] error being logged only; an
    answer in which some part does makes the call return the data URI of
    the first such part. *)
Theorem generateLifestyleImage_reads_the_answer :
  forall originalImage productName description editInstruction w r t ai req,
    generateLifestyleImage originalImage productName description editInstruction w
    = (r, t) ->
    In (Sent ai req) t ->
    match generateContent w req with
    | Throws e =>
        r = Throws image_failed
        /\ t = [Sent ai req; ConsoleError (lit "Gemini Image Gen Error:") e]
    | Returns resp =>
        (Forall (fun p => inline_image p = None) (visited_parts resp) ->
         r = Throws image_failed
         /\ t = [Sent ai req; ConsoleError (lit "Gemini Image Gen Error:") no_image])
        /\
        (forall pre part post uri,
            visited_parts resp = pre ++ part :: post ->
            Forall (fun p => inline_image p = None) pre ->
            inline_image part = Some uri ->
            r = Returns uri /\ t = [Sent ai req])
    end.
Proof.
  intros originalImage productName description editInstruction w r t ai req H Hin.
  unfold visited_parts. run_in H.
  all: injection H as <- <-; find_sent.
  all: repeat match goal with
         | E : ?x = _ |- context [match ?x with _ => _ end] => rewrite E
         end.
  all: try (split; reflexivity).
  all: split;
    [ intros Hnone; try (split; reflexivity);
      apply first_inline_image_none in Hnone; congruence
    | intros pre part post uri Hparts Hpre Hpart; try (destruct pre; discriminate);
      subst; erewrite first_inline_image_first in * by eassumption;
      try discriminate ].
  all: match goal with
       | E : Some _ = Some _ |- _ => injection E as <-; split; reflexivity
       end.
Qed.

Lemma generateLifestyleImage_reads_the_answer_witness :
  (Forall (fun p => inline_image p = None)
     (visited_parts (mkResponse None
        (Some [mkCandidate (Some (mkContent (Some [text_part; jpeg_part; png_part])))]))) ->
   Returns (lit "data:image/jpeg;base64,/9j/4AAQ") = Throws image_failed
   /\ [Sent (mkClient key)
         (mkRequest image_model
            [mkPart (Some (lifestyle_prompt (lit "Blue Kaftan") (lit "Hand-made.")))
               None] image_config)]
      = [Sent (mkClient key)
           (mkRequest image_model
              [mkPart (Some (lifestyle_prompt (lit "Blue Kaftan") (lit "Hand-made.")))
                 None] image_config);
         ConsoleError (lit "Gemini Image Gen Error:") no_image])
  /\
  (forall pre part post uri,
      visited_parts (mkResponse None
        (Some [mkCandidate (Some (mkContent (Some [text_part; jpeg_part; png_part])))]))
      = pre ++ part :: post ->
      Forall (fun p => inline_image p = None) pre ->
      inline_image part = Some uri ->
      Returns (lit "data:image/jpeg;base64,/9j/4AAQ") = Returns uri
      /\ [Sent (mkClient key)
            (mkRequest image_model
               [mkPart (Some (lifestyle_prompt (lit "Blue Kaftan") (lit "Hand-made.")))
                  None] image_config)]
         = [Sent (mkClient key)
              (mkRequest image_model
                 [mkPart (Some (lifestyle_prompt (lit "Blue Kaftan") (lit "Hand-made.")))
                    None] image_config)]).
Proof.
  apply (generateLifestyleImage_reads_the_answer
           None (lit "Blue Kaftan") (lit "Hand-made.") [] image_world _ _
           (mkClient key)
           (mkRequest image_model
              [mkPart (Some (lifestyle_prompt (lit "Blue Kaftan") (lit "Hand-made.")))
                 None] image_config)).
  - vm_compute. reflexivity.
  - left. reflexivity.
Defined.

(** C3, as stated, fails: the service answers in words only, and the caller
    gets [image_failed], the very error a failed request gives, while
    [no_image] reaches the console only. *)
Lemma answer_without_image_raises_the_generic_error :
  fst (generateLifestyleImage None (lit "Blue Kaftan") (lit "Hand-made.") []
         words_only_world) = Throws image_failed
  /\ fst (generateLifestyleImage None (lit "Blue Kaftan") (lit "Hand-made.") []
            offline) = Throws image_failed
  /\ Throws (A := jsstring) image_failed <> Throws no_image
  /\ first_inline_image (visited_parts (mkResponse None
       (Some [mkCandidate (Some (mkContent (Some [text_part])))]))) = None.
Proof. vm_compute. repeat split. discriminate. Qed.

End ImageResponse.

Section ImagePrompt.
Import Samples.

(** C5: whenever image generation is called with a non-empty edit
    instruction, a request it sends has one text part, the last one.  Its
    text is the fixed lifestyle prompt around the product name and the
    description, then the directive "IMPORTANT EDIT INSTRUCTION: ...
    Modify the image to strictly follow this instruction ..." around the
    instruction, then, with an original image, the sentence that tells to
    preserve the product; so the instruction occurs in it literally. *)
Theorem edit_instruction_is_sent_in_the_prompt :
  forall originalImage productName description editInstruction w r t ai req,
    editInstruction <> [] ->
    generateLifestyleImage originalImage productName description editInstruction w
    = (r, t) ->
    In (Sent ai req) t ->
    exists imageParts prompt directive rest,
      contents req
      = imageParts ++ [mkPart (Some (prompt ++ directive ++ rest)) None]
      /\ Forall (fun p => part_text p = None) imageParts
      /\ prompt
         = lit "Create a high-quality, professional Instagram lifestyle photography shot for the product "
           ++ dquote ++ productName ++ dquote ++ lit ". " ++ [10%N]
           ++ lit "  Context/Description: " ++ description ++ lit ". " ++ [10%N]
           ++ lit "  The image should be aesthetically pleasing, bright, and suitable for social media marketing. "
           ++ [10%N]
           ++ lit "  Aspect Ratio 1:1."
      /\ directive
         = [10%N; 10%N] ++ lit "IMPORTANT EDIT INSTRUCTION: " ++ editInstruction
           ++ lit ". Modify the image to strictly follow this instruction (e.g., change color, background, or setting)."
      /\ rest
         = match originalImage with
           | Some _ =>
               lit " preserve the key visual details of the product in the input image but place it in a better background/setting."
           | None => []
           end
      /\ substring_of editInstruction (prompt ++ directive ++ rest).
Proof.
  intros originalImage productName description editInstruction w r t ai req
    Hedit H Hin.
  pose proof (edit_directive_quotes (lifestyle_prompt productName description)
                editInstruction) as Hsub.
  rewrite <- lifestyle_prompt_text, <- edit_directive_text,
    <- preserve_directive_text.
  destruct editInstruction as [|c editInstruction]; [congruence|].
  run_in H.
  all: injection H as <- <-; find_sent; cbn [contents fst snd].
  all: match goal with
       | |- exists _ _ _ _, [_] = _ /\ _ =>
           exists [], (lifestyle_prompt productName description),
             (edit_directive (c :: editInstruction)), []
       | |- exists _ _ _ _, [_; _] = _ /\ _ =>
           eexists [_], (lifestyle_prompt productName description),
             (edit_directive (c :: editInstruction)), preserve_directive
       end.
  all: repeat rewrite app_nil_r; repeat rewrite <- app_assoc.
  all: repeat split; auto.
  all: specialize (Hsub []); now rewrite app_nil_r in Hsub.
Qed.

Lemma edit_instruction_is_sent_in_the_prompt_witness :
  exists imageParts prompt directive rest,
    contents (mkRequest image_model
                [mkPart None (Some (mkBlob (Some (lit "/9j/4AAQ")) (Some (lit "image/jpeg"))));
                 mkPart (Some (lifestyle_prompt (lit "Blue Kaftan") (lit "Hand-made.")
                               ++ edit_directive (lit "make it red")
                               ++ preserve_directive)) None]
                image_config)
    = imageParts ++ [mkPart (Some (prompt ++ directive ++ rest)) None]
    /\ Forall (fun p => part_text p = None) imageParts
    /\ prompt
       = lit "Create a high-quality, professional Instagram lifestyle photography shot for the product "
         ++ dquote ++ lit "Blue Kaftan" ++ dquote ++ lit ". " ++ [10%N]
         ++ lit "  Context/Description: " ++ lit "Hand-made." ++ lit ". " ++ [10%N]
         ++ lit "  The image should be aesthetically pleasing, bright, and suitable for social media marketing. "
         ++ [10%N]
         ++ lit "  Aspect Ratio 1:1."
    /\ directive
       = [10%N; 10%N] ++ lit "IMPORTANT EDIT INSTRUCTION: " ++ lit "make it red"
         ++ lit ". Modify the image to strictly follow this instruction (e.g., change color, background, or setting)."
    /\ rest
       = lit " preserve the key visual details of the product in the input image but place it in a better background/setting."
    /\ substring_of (lit "make it red") (prompt ++ directive ++ rest).
Proof.
  apply (edit_instruction_is_sent_in_the_prompt
           (Some photo) (lit "Blue Kaftan") (lit "Hand-made.") (lit "make it red")
           image_world
           (Returns (lit "data:image/jpeg;base64,/9j/4AAQ"))
           [Sent (mkClient key)
              (mkRequest image_model
                 [mkPart None (Some (mkBlob (Some (lit "/9j/4AAQ")) (Some (lit "image/jpeg"))));
                  mkPart (Some (lifestyle_prompt (lit "Blue Kaftan") (lit "Hand-made.")
                                ++ edit_directive (lit "make it red")
                                ++ preserve_directive)) None]
                 image_config)]
           (mkClient key)).
  - discriminate.
  - vm_compute. reflexivity.
  - left. reflexivity.
Defined.

(** With a key and an original image that is absent or readable, image
    generation calls the transport exactly once. *)
Lemma generateLifestyleImage_sends_once :
  forall originalImage productName description editInstruction w,
    truthy_opt (API_KEY w) = true ->
    (forall f, originalImage = Some f -> file_dataURL f <> None) ->
    transport_calls
      (snd (generateLifestyleImage originalImage productName description
              editInstruction w)) = 1.
Proof.
  intros originalImage productName description editInstruction w Hkey Hfile.
  destruct (generateLifestyleImage originalImage productName description
              editInstruction w) as [r t] eqn:H.
  run_in H.
  all: injection H as <- <-; try reflexivity.
  - rewrite Hkey in *. discriminate.
  - exfalso. eapply Hfile; eauto.
Qed.

End ImagePrompt.

Section ServiceGate.
Import Samples App.

(** With a key, an input that passes the test and an image that is absent
    or readable, content generation calls the transport exactly once. *)
Lemma generateProductContent_sends_once :
  forall imageFile textInput w,
    truthy_opt (API_KEY w) = true ->
    no_input imageFile textInput = false ->
    (forall f, imageFile = Some f -> file_dataURL f <> None) ->
    transport_calls (snd (generateProductContent imageFile textInput w)) = 1.
Proof.
  intros imageFile textInput w Hkey Hgate Hfile.
  destruct (generateProductContent imageFile textInput w) as [r t] eqn:H.
  run_in H.
  all: injection H as <- <-; try reflexivity.
  all: try (rewrite Hkey in *; discriminate).
  all: try (exfalso; eapply Hfile; eauto; fail).
  all: congruence.
Qed.

(** C9: a single space is a non-empty text made of white space only.  Sent
    alone to content generation, with a key set, it does not trigger the
    input error and one request goes out; typed alone in the form, it is
    refused by [handleGenerate], which calls nothing.  Whatever the service
    test refuses the form's test refuses too. *)
Theorem blank_text_passes_the_service_test_only :
  exists textInput,
    textInput <> []
    /\ trim textInput = []
    /\ no_input None textInput = false
    /\ (forall w,
           truthy_opt (API_KEY w) = true ->
           fst (generateProductContent None textInput w) <> Throws missing_input
           /\ transport_calls (snd (generateProductContent None textInput w)) = 1)
    /\ (forall state w,
           selectedImage state = None ->
           App.textInput state = textInput ->
           nothing_entered state = true
           /\ service_calls (handleGenerate state w) = 0
           /\ updates (handleGenerate state w)
              = [set_error (Some (lit "Please upload an image or enter a description first."))])
    /\ (forall state,
           no_input (selectedImage state) (App.textInput state) = true ->
           nothing_entered state = true).
Proof.
  exists [32%N]. split; [discriminate|]. split; [reflexivity|].
  split; [reflexivity|]. split; [|split].
  - intros w Hkey. split.
    + intros H.
      apply (missing_input_iff_no_input None [32%N] w Hkey) in H. discriminate H.
    + apply generateProductContent_sends_once; auto; discriminate.
  - intros state w Himg Htext.
    assert (Hgate : nothing_entered state = true).
    { unfold nothing_entered. now rewrite Himg, Htext. }
    unfold handleGenerate. rewrite Hgate. repeat split.
  - intros state. unfold no_input, nothing_entered.
    destruct (selectedImage state); [discriminate|].
    destruct (App.textInput state); [reflexivity | discriminate].
Qed.

End ServiceGate.

(* ================================================================== *)
(** * Properties of the session state *)
(* ================================================================== *)

Section Session.
Import Samples App.

(** Events of the service do not touch the state. *)
Lemma run_service_events :
  forall t rest s,
    run (map (fun e => Do (Service e)) t ++ rest) s
    = (fst (run rest s), map Service t ++ snd (run rest s)).
Proof.
  induction t as [|e t IH]; intros rest s; cbn [map app run].
  - now destruct (run rest s).
  - rewrite IH. reflexivity.
Qed.

Lemma updates_service_events :
  forall t rest,
    updates (map (fun e => Do (Service e)) t ++ rest) = updates rest.
Proof.
  induction t as [|e t IH]; intros rest; [reflexivity|].
  cbn [map app]. unfold updates in *. cbn [flat_map app]. apply IH.
Qed.

(** C10: when the image-generation flow is entered and the operation
    throws, the handler makes two state updates, both touching the
    in-flight flag alone: whatever state they are applied to keeps its
    generated image and its listing, and after the handler the session is
    the one before it with the in-flight flag false. *)
Theorem failed_image_generation_keeps_the_session :
  forall state editInstruction w err,
    ToBoolean (data state) = true ->
    fst (generateLifestyleImage_of (selectedImage state) (data state)
           editInstruction w) = Throws err ->
    updates (handleGenerateImage state editInstruction w)
    = [set_generating true; set_generating false]
    /\ (forall s,
           fst (run (handleGenerateImage state editInstruction w) s)
           = set_generating false s)
    /\ (forall s,
           marketingImageUrl
             (fst (run (handleGenerateImage state editInstruction w) s))
           = marketingImageUrl s
           /\ data (fst (run (handleGenerateImage state editInstruction w) s))
              = data s
           /\ isGeneratingImage
                (fst (run (handleGenerateImage state editInstruction w) s))
              = false)
    /\ Forall (fun update =>
                 forall s, marketingImageUrl (update s) = marketingImageUrl s
                           /\ data (update s) = data s)
         (updates (handleGenerateImage state editInstruction w)).
Proof.
  intros state editInstruction w err Hdata Hfail.
  unfold handleGenerateImage. rewrite Hdata. cbn [negb].
  destruct (generateLifestyleImage_of _ _ _ _) as [r t].
  cbn [fst] in Hfail. subst r.
  assert (Hrun : forall s,
             fst (run (SetState (set_generating true)
                       :: map (fun e => Do (Service e)) t
                          ++ [Do (Alert (lit "Could not generate image: "
                                         ++ match message_of err with
                                            | Some m => m
                                            | None => lit "undefined"
                                            end));
                              SetState (set_generating false)]) s)
             = set_generating false s).
  { intros s. cbn [run]. rewrite run_service_events. cbn [run fst]. reflexivity. }
  assert (Hupd : updates (SetState (set_generating true)
                          :: map (fun e => Do (Service e)) t
                             ++ [Do (Alert (lit "Could not generate image: "
                                            ++ match message_of err with
                                               | Some m => m
                                               | None => lit "undefined"
                                               end));
                                 SetState (set_generating false)])
                 = [set_generating true; set_generating false]).
  { change (updates (SetState (set_generating true) :: ?l))
      with (set_generating true :: updates l).
    now rewrite updates_service_events. }
  split; [exact Hupd|]. split; [exact Hrun|]. split.
  - intros s. rewrite Hrun. repeat split.
  - rewrite Hupd. repeat constructor.
Qed.

Lemma failed_image_generation_keeps_the_session_witness :
  updates (handleGenerateImage showing_listing (lit "make it red") words_only_world)
  = [set_generating true; set_generating false]
  /\ (forall s,
         fst (run (handleGenerateImage showing_listing (lit "make it red")
                     words_only_world) s)
         = set_generating false s)
  /\ (forall s,
         marketingImageUrl
           (fst (run (handleGenerateImage showing_listing (lit "make it red")
                        words_only_world) s))
         = marketingImageUrl s
         /\ data (fst (run (handleGenerateImage showing_listing (lit "make it red")
                              words_only_world) s))
            = data s
         /\ isGeneratingImage
              (fst (run (handleGenerateImage showing_listing (lit "make it red")
                           words_only_world) s))
            = false)
  /\ Forall (fun update =>
               forall s, marketingImageUrl (update s) = marketingImageUrl s
                         /\ data (update s) = data s)
       (updates (handleGenerateImage showing_listing (lit "make it red")
                   words_only_world)).
Proof.
  apply (failed_image_generation_keeps_the_session
           showing_listing (lit "make it red") words_only_world image_failed).
  - reflexivity.
  - vm_compute. reflexivity.
Defined.

(** On failure the user is told, and the image shown before stays: run
    from the session showing a listing and its image, with a service that
    answers in words only. *)
Example failed_regeneration_sample :
  marketingImageUrl
    (fst (run (handleGenerateImage showing_listing (lit "make it red")
                 words_only_world) showing_listing))
  = Some (lit "data:image/png;base64,AAAA")
  /\ In (Alert (lit "Could not generate image: Failed to generate lifestyle image."))
       (snd (run (handleGenerateImage showing_listing (lit "make it red")
                    words_only_world) showing_listing)).
Proof. vm_compute. split; [reflexivity|]. right. right. left. reflexivity. Qed.

End Session.

(* ================================================================== *)
(** * Properties of the compositing *)
(* ================================================================== *)

Section Compositing.
Import Samples ResultCard.

(** ** The size of the output *)

Lemma canvas_size_from_no_resize :
  forall ops size,
    Forall (fun op => resizes op = false) ops ->
    canvas_size_from size ops = size
    /\ Forall (fun s => s = size) (downloads_from size ops).
Proof.
  induction ops as [|op ops IH]; intros size Hops; cbn.
  - split; [reflexivity | constructor].
  - inversion Hops as [|? ? Hop Hrest]; subst.
    destruct (IH size Hrest) as [Hsize Hdl].
    destruct op; try discriminate Hop; auto.
Qed.

Lemma draw_logo_no_resize :
  forall b W url x y,
    Forall (fun op => resizes op = false) (fst (draw_logo b W url x y)).
Proof.
  intros b W url x y. unfold draw_logo.
  destruct (load_image b url) as [[lw lh]|];
    destruct (gtb _ _); try destruct (broken_image_throws b);
    cbn; repeat constructor.
Qed.

Lemma draw_price_tag_no_resize :
  forall b W H price,
    Forall (fun op => resizes op = false) (draw_price_tag b W H price).
Proof.
  intros b W H price. unfold draw_price_tag.
  destruct (has_roundRect b); repeat constructor.
Qed.

(** After its two assignments to the canvas, [onload] never resizes it. *)
Lemma onload_resizes_once :
  forall b c src W H,
    exists ops,
      onload b c src W H = [set_width W; set_height H] ++ ops
      /\ Forall (fun op => resizes op = false) ops.
Proof.
  intros b c src W H. unfold onload. eexists. split; [reflexivity|].
  destruct (context2d b); cbn [negb]; [|constructor].
  pose proof (draw_logo_no_resize b W) as Hlogo.
  destruct (logoUrl c) as [[|u url]|].
  2: specialize (Hlogo (u :: url) (mul (num 40) (div (of_N W) (num 1000)))
                   (mul (num 40) (div (of_N W) (num 1000))));
     destruct (draw_logo _ _ _ _ _) as [logo_ops [y|]]; cbn [fst] in Hlogo.
  all: repeat (apply Forall_app; split); try assumption;
    try apply draw_price_tag_no_resize; try destruct (truthy (businessName c));
    unfold draw_business_name; repeat constructor.
Qed.

(** C7: when the base image loads with natural size [W] x [H], the canvas
    ends [W] x [H] and every PNG offered for download is [W] x [H], whatever
    the logo, the business name and the price. *)
Theorem composition_has_the_size_of_the_base_image :
  forall b c src W H,
    marketingImageUrl c = Some src ->
    src <> [] ->
    load_image b src = Some (W, H) ->
    canvas_size (handleDownload b c) = (W, H)
    /\ Forall (fun size => size = (W, H)) (downloads (handleDownload b c)).
Proof.
  intros b c src W H Hurl Hsrc Hload. unfold handleDownload.
  rewrite Hurl. destruct src as [|u src]; [congruence|]. rewrite Hload.
  destruct (onload_resizes_once b c (u :: src) W H) as (ops & -> & Hops).
  unfold canvas_size, downloads. cbn.
  now apply canvas_size_from_no_resize.
Qed.

Lemma composition_has_the_size_of_the_base_image_witness :
  canvas_size (handleDownload (browser false) card_with_broken_logo)
  = (1000%N, 800%N)
  /\ Forall (fun size => size = (1000%N, 800%N))
       (downloads (handleDownload (browser false) card_with_broken_logo)).
Proof.
  apply (composition_has_the_size_of_the_base_image
           (browser false) card_with_broken_logo (lit "generated.png")).
  - reflexivity.
  - discriminate.
  - reflexivity.
Defined.

(** A PNG is offered when the context exists and [drawImage] does not throw
    on the logo: here with no logo at all. *)
Example plain_card_downloads_one_png :
  downloads (handleDownload (browser false) (plain_card "5,000"))
  = [(1000%N, 800%N)].
Proof. vm_compute. reflexivity. Qed.

(** ** The price tag *)

Lemma pill_padding_is_finite :
  forall W, exists k, mul (price_padding W) (num 2) = Fin k.
Proof.
  intros W. unfold price_padding, price_fontSize, Math_max, num, of_Z, of_N, dec.
  cbn [mul]. destruct (leb _ _); cbn [mul]; eexists; reflexivity.
Qed.

(** The width of the pill grows with the width of the text. *)
Lemma pill_width_monotone :
  forall W textWidth1 textWidth2,
    le textWidth1 textWidth2 ->
    le (pill_width W textWidth1) (pill_width W textWidth2).
Proof.
  intros W t1 t2 Hle. unfold pill_width, le in *.
  destruct (pill_padding_is_finite W) as [k ->].
  destruct t1 as [a| | |], t2 as [b| | |]; cbn in *; try discriminate; auto.
  apply Qle_bool_iff in Hle. apply Qle_bool_iff.
  apply Qplus_le_compat; [assumption | apply Qle_refl].
Qed.

Lemma pill_widths_app :
  forall ops1 ops2, pill_widths (ops1 ++ ops2) = pill_widths ops1 ++ pill_widths ops2.
Proof. intros ops1 ops2. apply flat_map_app. Qed.

Lemma pill_widths_draw_logo :
  forall b W url x y, pill_widths (fst (draw_logo b W url x y)) = [].
Proof.
  intros b W url x y. unfold draw_logo.
  destruct (load_image b url) as [[lw lh]|];
    destruct (gtb _ _); try destruct (broken_image_throws b); reflexivity.
Qed.

Lemma pill_widths_draw_price_tag :
  forall b W H price,
    pill_widths (draw_price_tag b W H price)
    = [pill_width W (measureText b (price_fontSize W) price)].
Proof.
  intros b W H price. unfold draw_price_tag. now destruct (has_roundRect b).
Qed.

(** The only rectangle [handleDownload] draws is the pill of the price
    tag, as wide as the measured price plus twice the padding. *)
Lemma pill_widths_of_download :
  forall b c src W H width,
    marketingImageUrl c = Some src ->
    load_image b src = Some (W, H) ->
    In width (pill_widths (handleDownload b c)) ->
    width = pill_width W (measureText b (price_fontSize W) (customPrice c)).
Proof.
  intros b c src W H width Hurl Hload Hin. unfold handleDownload in Hin.
  rewrite Hurl in Hin. destruct src as [|u src]; [destruct Hin|].
  rewrite Hload in Hin. unfold onload in Hin.
  destruct (context2d b); cbn [negb] in Hin; [|destruct Hin].
  pose proof (pill_widths_draw_logo b W) as Hlogo.
  destruct (logoUrl c) as [[|lu lurl]|].
  2: specialize (Hlogo (lu :: lurl) (mul (num 40) (div (of_N W) (num 1000)))
                   (mul (num 40) (div (of_N W) (num 1000))));
     destruct (draw_logo _ _ _ _ _) as [logo_ops [y|]]; cbn [fst] in Hlogo.
  all: rewrite ?pill_widths_app, ?Hlogo, ?pill_widths_draw_price_tag in Hin;
    try destruct (truthy (businessName c));
    cbn in Hin; intuition.
Qed.

(** C8: for one base image and two prices, if the first price measures no
    wider than the second, the pill drawn for the first is no wider than
    the pill drawn for the second. *)
Theorem pill_width_follows_text_width :
  forall b c src W H p1 p2 width1 width2,
    marketingImageUrl c = Some src ->
    load_image b src = Some (W, H) ->
    le (measureText b (price_fontSize W) p1) (measureText b (price_fontSize W) p2) ->
    In width1 (pill_widths (handleDownload b (setCustomPrice p1 c))) ->
    In width2 (pill_widths (handleDownload b (setCustomPrice p2 c))) ->
    width1 = pill_width W (measureText b (price_fontSize W) p1)
    /\ width2 = pill_width W (measureText b (price_fontSize W) p2)
    /\ le width1 width2.
Proof.
  intros b c src W H p1 p2 width1 width2 Hurl Hload Hle H1 H2.
  apply (pill_widths_of_download b (setCustomPrice p1 c) src W H) in H1; auto.
  apply (pill_widths_of_download b (setCustomPrice p2 c) src W H) in H2; auto.
  cbn [customPrice setCustomPrice] in H1, H2. subst width1 width2.
  repeat split. now apply pill_width_monotone.
Qed.

Lemma pill_width_follows_text_width_witness :
  pill_width 1000 (measureText (browser false) (price_fontSize 1000) (lit "5,000"))
  = pill_width 1000 (measureText (browser false) (price_fontSize 1000) (lit "5,000"))
  /\ pill_width 1000 (measureText (browser false) (price_fontSize 1000) (lit "15,000"))
     = pill_width 1000 (measureText (browser false) (price_fontSize 1000) (lit "15,000"))
  /\ le (pill_width 1000 (measureText (browser false) (price_fontSize 1000) (lit "5,000")))
        (pill_width 1000 (measureText (browser false) (price_fontSize 1000) (lit "15,000"))).
Proof.
  apply (pill_width_follows_text_width
           (browser false) (plain_card "0") (lit "generated.png") 1000%N 800%N
           (lit "5,000") (lit "15,000")).
  - reflexivity.
  - reflexivity.
  - vm_compute. reflexivity.
  - vm_compute. left. reflexivity.
  - vm_compute. left. reflexivity.
Defined.

(** The pill is drawn: 50 wide for a five-unit price on a 1000-wide image
    with fifty-pixel type, plus sixty of padding. *)
Example pill_width_sample :
  pill_widths (handleDownload (browser false) (plain_card "5,000"))
  = [pill_width 1000 (of_N 50)]
  /\ le (pill_width 1000 (of_N 50)) (num 110)
  /\ le (num 110) (pill_width 1000 (of_N 50)).
Proof. vm_compute. repeat split. Qed.

(** ** A missing base image, a logo that fails to load *)

(** With no generated image the handler does nothing at all. *)
Lemma no_base_image_is_a_no_op :
  forall b c,
    truthy_opt (marketingImageUrl c) = false ->
    handleDownload b c = []
    /\ downloads (handleDownload b c) = [].
Proof.
  intros b c Hurl. unfold handleDownload.
  destruct (marketingImageUrl c) as [[|u src]|]; try discriminate; now split.
Qed.

Lemma add_NaN_r : forall x, add x NaN = NaN.
Proof. now destruct x. Qed.

(** The logo block draws no text. *)
Lemma draw_logo_draws_no_text :
  forall b W url x y text tx ty,
    ~ In (fillText text tx ty) (fst (draw_logo b W url x y)).
Proof.
  intros b W url x y text tx ty. unfold draw_logo.
  destruct (load_image b url) as [[lw lh]|];
    destruct (gtb _ _); try destruct (broken_image_throws b);
    cbn; intuition discriminate.
Qed.

(** For a logo that failed to load, the arithmetic of the logo block ends
    in [NaN]: the business name is given no finite ordinate. *)
Lemma draw_logo_broken :
  forall b W url x y,
    load_image b url = None ->
    snd (draw_logo b W url x y) = (if broken_image_throws b then None else Some NaN).
Proof.
  intros b W url x y Hload. unfold draw_logo. rewrite Hload.
  assert (Hratio : div (of_N 0) (of_N 0) = NaN) by reflexivity.
  rewrite Hratio.
  assert (Hheight : forall s, div s NaN = NaN) by (now destruct s).
  rewrite Hheight. cbn [gtb].
  destruct (broken_image_throws b); cbn [fst snd app]; [reflexivity|].
  now rewrite add_NaN_r.
Qed.

(** When the logo fails to load, the one text that may reach the canvas is
    the price: the call that draws the business name, if it is made at all,
    is made at ordinate [NaN] and paints nothing. *)
Lemma broken_logo_blanks_the_business_name :
  forall b c src W H url text x y,
    marketingImageUrl c = Some src ->
    load_image b src = Some (W, H) ->
    logoUrl c = Some url ->
    url <> [] ->
    load_image b url = None ->
    In (fillText text x y) (handleDownload b c) ->
    (text = businessName c /\ y = NaN /\ paints (fillText text x y) = false)
    \/ (text = customPrice c /\ y = mul (of_N H) (dec 95 100)).
Proof.
  intros b c src W H url text x y Hurl Hload Hlogo Hne Hbroken Hin.
  unfold handleDownload in Hin. rewrite Hurl in Hin.
  destruct src as [|u src]; [destruct Hin|]. rewrite Hload in Hin.
  unfold onload in Hin. rewrite Hlogo in Hin.
  destruct url as [|lu url]; [congruence|].
  destruct (context2d b); cbn [negb] in Hin.
  2: { cbn in Hin. intuition discriminate. }
  pose proof (draw_logo_broken b W (lu :: url)
                (mul (num 40) (div (of_N W) (num 1000)))
                (mul (num 40) (div (of_N W) (num 1000))) Hbroken) as Hy.
  pose proof (draw_logo_draws_no_text b W (lu :: url)
                (mul (num 40) (div (of_N W) (num 1000)))
                (mul (num 40) (div (of_N W) (num 1000))) text x y) as Hno.
  destruct (draw_logo _ _ _ _ _) as [logo_ops y']. cbn [fst snd] in Hy, Hno.
  subst y'.
  repeat (apply in_app_or in Hin; destruct Hin as [Hin | Hin]).
  - cbn in Hin. intuition discriminate.
  - cbn in Hin. intuition discriminate.
  - contradiction.
  - destruct (broken_image_throws b); [destruct Hin|].
    repeat (apply in_app_or in Hin; destruct Hin as [Hin | Hin]).
    + left. destruct (truthy (businessName c)); [|destruct Hin].
      unfold draw_business_name in Hin. cbn in Hin.
      repeat (destruct Hin as [Hin | Hin]; try discriminate Hin);
        try contradiction.
      injection Hin as <- <- <-. repeat split.
    + right. unfold draw_price_tag in Hin.
      destruct (has_roundRect b); cbn in Hin;
        repeat (destruct Hin as [Hin | Hin]; try discriminate Hin);
        try contradiction; injection Hin as <- <- <-; now split.
    + cbn in Hin. intuition discriminate.
Qed.

(** C4, at the failing input: the generated image loads, the logo does
    not, the business name is "Shop".  Where [drawImage] lets the failed
    logo pass, the name is drawn at ordinate [NaN], so the price is the
    only text painted, and one PNG is offered; where [drawImage] throws,
    nothing is painted after the base image and no PNG is offered. *)
Theorem broken_logo_composition :
  In (fillText (lit "Shop") (mul (num 40) (div (of_N 1000) (num 1000))) NaN)
     (handleDownload (browser false) card_with_broken_logo)
  /\ painted_texts (handleDownload (browser false) card_with_broken_logo)
     = [lit "5,000"]
  /\ downloads (handleDownload (browser false) card_with_broken_logo)
     = [(1000%N, 800%N)]
  /\ painted_texts (handleDownload (browser true) card_with_broken_logo) = []
  /\ downloads (handleDownload (browser true) card_with_broken_logo) = [].
Proof.
  vm_compute. repeat split. do 12 right. left. reflexivity.
Qed.

(** With a logo that loads, the business name is painted under it. *)
Example loaded_logo_composition :
  painted_texts
    (handleDownload (browser false)
       (mkCard (lit "Blue Kaftan") (Some (lit "generated.png")) (lit "5,000")
          (lit "Shop") (Some (lit "logo.png"))))
  = [lit "Shop"; lit "5,000"].
Proof. vm_compute. reflexivity. Qed.

End Compositing.

(* ================================================================== *)
(** * More on the generation clients *)
(* ================================================================== *)

Section Requests.
Import Samples.

(** X1: every request that content generation sends goes to the model
    [gemini-2.5-flash] and asks for JSON under the schema, whose eight
    fields are all required.  Its first part is the text part: the fixed
    prompt, followed, when the user's text is not empty, by that text in
    quotes between "User provided context: " and ". Use this context to
    refine the description.".  The only other part is the image, when one
    is given: what follows the first comma of its data URL, with the file's
    declared type. *)
Theorem content_request_carries_the_input :
  forall imageFile textInput w r t ai req,
    generateProductContent imageFile textInput w = (r, t) ->
    In (Sent ai req) t ->
    ai = mkClient (API_KEY w)
    /\ model req = lit "gemini-2.5-flash"
    /\ responseMimeType (config req) = Some (lit "application/json")
    /\ option_map required (responseSchema (config req))
       = Some [ lit "productName"; lit "shortDescription"; lit "longDescription";
                lit "suggestedPrice"; lit "seoKeywords"; lit "hashtags";
                lit "socialMediaPost"; lit "targetAudience" ]
    /\ option_map (fun s => map fst (properties s)) (responseSchema (config req))
       = option_map required (responseSchema (config req))
    /\ exists imageParts,
        contents req
        = mkPart
            (Some (lit "You are an expert e-commerce copywriter and sales strategist for the Nigerian market. Analyze the input (image and/or text) and generate a high-converting product listing."
                   ++ (if truthy textInput
                       then [10%N; 10%N] ++ lit "User provided context: "
                            ++ dquote ++ textInput ++ dquote
                            ++ lit ". Use this context to refine the description."
                       else [])))
            None :: imageParts
        /\ match imageFile with
           | None => imageParts = []
           | Some f =>
               exists url,
                 file_dataURL f = Some url
                 /\ imageParts
                    = [mkPart None
                         (Some (mkBlob (split_comma_1 url) (Some (file_type f))))]
           end.
Proof.
  intros imageFile textInput w r t ai req H Hin.
  rewrite <- content_prompt_text, <- user_context_text.
  run_in H.
  all: injection H as <- <-; find_sent; cbn [model config contents].
  all: repeat split; eexists; repeat split; try reflexivity; auto.
  all: eexists; split; reflexivity.
Qed.

Lemma content_request_carries_the_input_witness :
  mkClient key = mkClient (API_KEY listing_world)
  /\ model (mkRequest content_model
              [mkPart (Some (content_prompt ++ user_context (lit "blue kaftan"))) None]
              content_config) = lit "gemini-2.5-flash"
  /\ responseMimeType
       (config (mkRequest content_model
                  [mkPart (Some (content_prompt ++ user_context (lit "blue kaftan"))) None]
                  content_config)) = Some (lit "application/json")
  /\ option_map required
       (responseSchema
          (config (mkRequest content_model
                     [mkPart (Some (content_prompt ++ user_context (lit "blue kaftan"))) None]
                     content_config)))
     = Some [ lit "productName"; lit "shortDescription"; lit "longDescription";
              lit "suggestedPrice"; lit "seoKeywords"; lit "hashtags";
              lit "socialMediaPost"; lit "targetAudience" ]
  /\ option_map (fun s => map fst (properties s))
       (responseSchema
          (config (mkRequest content_model
                     [mkPart (Some (content_prompt ++ user_context (lit "blue kaftan"))) None]
                     content_config)))
     = option_map required
         (responseSchema
            (config (mkRequest content_model
                       [mkPart (Some (content_prompt ++ user_context (lit "blue kaftan"))) None]
                       content_config)))
  /\ exists imageParts,
      contents (mkRequest content_model
                  [mkPart (Some (content_prompt ++ user_context (lit "blue kaftan"))) None]
                  content_config)
      = mkPart
          (Some (lit "You are an expert e-commerce copywriter and sales strategist for the Nigerian market. Analyze the input (image and/or text) and generate a high-converting product listing."
                 ++ (if truthy (lit "blue kaftan")
                     then [10%N; 10%N] ++ lit "User provided context: "
                          ++ dquote ++ lit "blue kaftan" ++ dquote
                          ++ lit ". Use this context to refine the description."
                     else [])))
          None :: imageParts
      /\ imageParts = [].
Proof.
  apply (content_request_carries_the_input
           None (lit "blue kaftan") listing_world
           (Returns listing)
           [Sent (mkClient key)
              (mkRequest content_model
                 [mkPart (Some (content_prompt ++ user_context (lit "blue kaftan"))) None]
                 content_config)]).
  - vm_compute. reflexivity.
  - left. reflexivity.
Defined.

End Requests.

Section Encoding.
Import Samples.

Lemma upto_comma_payload :
  forall payload,
    Forall (fun c => N.eqb c 44 = false) payload ->
    upto_comma payload = payload.
Proof.
  induction payload as [|c payload IH]; intros H; [reflexivity|].
  inversion H as [|? ? Hc Hrest]; subst. cbn. rewrite Hc. now rewrite IH.
Qed.

(** [split(',')[1]] of a header, a comma and a payload, both free of
    commas, is the payload. *)
Lemma split_comma_1_payload :
  forall header payload,
    Forall (fun c => N.eqb c 44 = false) header ->
    Forall (fun c => N.eqb c 44 = false) payload ->
    split_comma_1 (header ++ 44%N :: payload) = Some payload.
Proof.
  induction header as [|c header IH]; intros payload Hh Hp; cbn.
  - now rewrite upto_comma_payload.
  - inversion Hh as [|? ? Hc Hrest]; subst. rewrite Hc. now apply IH.
Qed.

(** A text without comma has no second piece. *)
Lemma split_comma_1_none :
  forall s, Forall (fun c => N.eqb c 44 = false) s -> split_comma_1 s = None.
Proof.
  induction s as [|c s IH]; intros H; [reflexivity|].
  inversion H as [|? ? Hc Hrest]; subst. cbn. rewrite Hc. now apply IH.
Qed.

(** X2: a file that reads as a data URL (a header, a comma, a base64
    payload, neither holding a comma) is sent by both operations as one
    inline part holding exactly that payload and the file's declared type,
    in the one request of the call. *)
Theorem image_payload_is_sent_as_read :
  forall f header payload textInput productName description editInstruction w,
    truthy_opt (API_KEY w) = true ->
    file_dataURL f = Some (header ++ 44%N :: payload) ->
    Forall (fun c => N.eqb c 44 = false) header ->
    Forall (fun c => N.eqb c 44 = false) payload ->
    (exists ai req rest,
        snd (generateProductContent (Some f) textInput w) = Sent ai req :: rest
        /\ transport_calls (snd (generateProductContent (Some f) textInput w)) = 1
        /\ In (mkPart None (Some (mkBlob (Some payload) (Some (file_type f)))))
             (contents req))
    /\
    (exists ai req rest,
        snd (generateLifestyleImage (Some f) productName description
               editInstruction w) = Sent ai req :: rest
        /\ transport_calls
             (snd (generateLifestyleImage (Some f) productName description
                     editInstruction w)) = 1
        /\ In (mkPart None (Some (mkBlob (Some payload) (Some (file_type f)))))
             (contents req)).
Proof.
  intros f header payload textInput productName description editInstruction w
    Hkey Hurl Hh Hp.
  pose proof (split_comma_1_payload header payload Hh Hp) as Hsplit.
  split.
  - destruct (generateProductContent (Some f) textInput w) as [r t] eqn:H.
    run_in H.
    all: try (rewrite Hkey in *; discriminate).
    all: try congruence.
    all: injection H as <- <-.
    all: injection Hurl as ->.
    all: rewrite Hsplit; do 3 eexists; cbn [snd app];
      (split; [reflexivity|]); (split; [reflexivity|]);
      cbn [contents]; right; left; reflexivity.
  - destruct (generateLifestyleImage (Some f) productName description
                editInstruction w) as [r t] eqn:H.
    run_in H.
    all: try (rewrite Hkey in *; discriminate).
    all: try congruence.
    all: injection H as <- <-.
    all: injection Hurl as ->.
    all: rewrite Hsplit; do 3 eexists; cbn [snd app];
      (split; [reflexivity|]); (split; [reflexivity|]);
      cbn [contents]; left; reflexivity.
Qed.

Lemma image_payload_is_sent_as_read_witness :
  (exists ai req rest,
      snd (generateProductContent (Some photo) [] image_world) = Sent ai req :: rest
      /\ transport_calls (snd (generateProductContent (Some photo) [] image_world)) = 1
      /\ In (mkPart None (Some (mkBlob (Some (lit "/9j/4AAQ")) (Some (file_type photo)))))
           (contents req))
  /\
  (exists ai req rest,
      snd (generateLifestyleImage (Some photo) (lit "Blue Kaftan")
             (lit "Hand-made.") [] image_world) = Sent ai req :: rest
      /\ transport_calls
           (snd (generateLifestyleImage (Some photo) (lit "Blue Kaftan")
                   (lit "Hand-made.") [] image_world)) = 1
      /\ In (mkPart None (Some (mkBlob (Some (lit "/9j/4AAQ")) (Some (file_type photo)))))
           (contents req)).
Proof.
  apply (image_payload_is_sent_as_read
           photo (lit "data:image/jpeg;base64") (lit "/9j/4AAQ") []
           (lit "Blue Kaftan") (lit "Hand-made.") [] image_world).
  - reflexivity.
  - vm_compute. reflexivity.
  - vm_compute. repeat constructor.
  - vm_compute. repeat constructor.
Defined.

(** X3: neither operation calls the transport more than once, whatever the
    input, the environment and the answer: a failure is never retried. *)
Theorem operations_never_retry :
  forall imageFile textInput productName description editInstruction w,
    transport_calls (snd (generateProductContent imageFile textInput w)) <= 1
    /\ transport_calls
         (snd (generateLifestyleImage imageFile productName description
                 editInstruction w)) <= 1.
Proof.
  intros imageFile textInput productName description editInstruction w. split.
  - destruct (generateProductContent imageFile textInput w) as [r t] eqn:H.
    run_in H. all: injection H as <- <-; cbn; lia.
  - destruct (generateLifestyleImage imageFile productName description
                editInstruction w) as [r t] eqn:H.
    run_in H. all: injection H as <- <-; cbn; lia.
Qed.



End Encoding.

(* ================================================================== *)
(** * More on the session *)
(* ================================================================== *)

Section FormGate.
Import Samples App.

Lemma trimStart_all_space :
  forall s, trimStart s = [] <-> forallb isWhiteSpace s = true.
Proof.
  induction s as [|c s IH]; cbn; [tauto|].
  destruct (isWhiteSpace c); cbn; [exact IH | split; discriminate].
Qed.

Lemma trimStart_head :
  forall s c r, trimStart s = c :: r -> isWhiteSpace c = false.
Proof.
  induction s as [|x s IH]; intros c r H; cbn in H; [discriminate|].
  destruct (isWhiteSpace x) eqn:Hx; [now apply (IH c r)|].
  now injection H as <- _.
Qed.

Lemma forallb_rev :
  forall (f : N -> bool) s, forallb f (rev s) = forallb f s.
Proof.
  intros f s. induction s as [|c s IH]; [reflexivity|].
  cbn. rewrite forallb_app, IH. cbn. rewrite andb_true_r. apply andb_comm.
Qed.

(** [trim] leaves nothing exactly of the texts made of white space. *)
Lemma trim_nil_iff :
  forall s, trim s = [] <-> forallb isWhiteSpace s = true.
Proof.
  intros s. unfold trim, trimEnd. split.
  - intros H. apply trimStart_all_space.
    destruct (trimStart s) as [|c r] eqn:Hs; [reflexivity|].
    apply trimStart_head in Hs.
    assert (Hrev : trimStart (rev (c :: r)) = []).
    { destruct (trimStart (rev (c :: r))); [reflexivity|].
      apply (f_equal (@List.length N)) in H. rewrite length_rev in H.
      discriminate H. }
    apply trimStart_all_space in Hrev. rewrite forallb_rev in Hrev.
    cbn in Hrev. rewrite Hs in Hrev. discriminate.
  - intros H. apply trimStart_all_space in H. now rewrite H.
Qed.

(** X5: the form refuses to generate exactly when no image is selected and
    the text holds nothing but white space; it then calls nothing, and all
    it changes in the session, whatever it has become, is the error
    message. *)
Theorem form_refuses_blank_input :
  forall state w,
    (nothing_entered state = true
     <-> selectedImage state = None
         /\ forallb isWhiteSpace (App.textInput state) = true)
    /\ (nothing_entered state = true ->
        service_calls (handleGenerate state w) = 0
        /\ events (handleGenerate state w) = []
        /\ forall s,
            fst (run (handleGenerate state w) s)
            = mkState (status s) (data s)
                (Some (lit "Please upload an image or enter a description first."))
                (selectedImage s) (imagePreviewUrl s) (App.textInput s)
                (isGeneratingImage s) (App.marketingImageUrl s)).
Proof.
  intros state w. split.
  - unfold nothing_entered. rewrite andb_true_iff, !negb_true_iff.
    rewrite <- trim_nil_iff.
    destruct (selectedImage state); destruct (trim (App.textInput state));
      cbn; intuition congruence.
  - intros Hgate. unfold handleGenerate. rewrite Hgate. repeat split.
Qed.

End FormGate.

Section GenerateOutcome.
Import Samples App.

(** The errors content generation can throw. *)
Lemma generateProductContent_throws :
  forall imageFile textInput w err,
    fst (generateProductContent imageFile textInput w) = Throws err ->
    err = missing_key_content \/ err = missing_input
    \/ err = ReadFailure \/ err = content_failed.
Proof.
  intros imageFile textInput w err H.
  destruct (generateProductContent imageFile textInput w) as [r t] eqn:Hrun.
  cbn [fst] in H. subst r. run_in Hrun.
  all: injection Hrun as <- _; auto.
Qed.



(** X7: the input error of the service never reaches the form's user:
    whatever the session and the world, [handleGenerate] does not leave the
    message of [missing_input] as the error, because what the form lets
    through always passes the service's own test. *)
Theorem service_input_error_is_unreachable :
  forall state w s,
    (nothing_entered state = false ->
     no_input (selectedImage state) (App.textInput state) = false
     /\ fst (generateProductContent (selectedImage state) (App.textInput state) w)
        <> Throws (Error (lit "Please provide an image or text description.")))
    /\ error (fst (run (handleGenerate state w) s))
       <> Some (lit "Please provide an image or text description.").
Proof.
  intros state w s.
  assert (Hpass : nothing_entered state = false ->
                  no_input (selectedImage state) (App.textInput state) = false).
  { unfold nothing_entered, no_input.
    destruct (selectedImage state); [reflexivity|].
    destruct (App.textInput state); [discriminate | reflexivity]. }
  assert (Hnot : nothing_entered state = false ->
                 fst (generateProductContent (selectedImage state)
                        (App.textInput state) w) <> Throws missing_input).
  { intros Hgate Hthrow. specialize (Hpass Hgate).
    destruct (truthy_opt (API_KEY w)) eqn:Hkey.
    - apply (missing_input_iff_no_input _ _ w Hkey) in Hthrow. congruence.
    - rewrite generateProductContent_without_key in Hthrow by assumption.
      cbn [fst] in Hthrow. destruct errors_are_distinct as (Hd & _).
      congruence. }
  split; [intros Hgate; split; auto|].
  unfold handleGenerate. destruct (nothing_entered state) eqn:Hgate.
  - cbn. discriminate.
  - specialize (Hnot eq_refl).
    pose proof (generateProductContent_throws (selectedImage state)
                  (App.textInput state) w) as Hthrows.
    destruct (generateProductContent _ _ _) as [r t].
    cbn [run]. rewrite run_service_events. cbn [fst] in Hnot, Hthrows.
    destruct r as [result | err]; cbn [run fst]; [discriminate|].
    destruct (Hthrows err eq_refl) as [-> | [-> | [-> | ->]]];
      cbn; try discriminate.
    congruence.
Qed.

End GenerateOutcome.

Section ImageFlow.
Import Samples MoreSamples App AppControls.

(** X8: when the image-generation flow is entered and the operation
    returns a URI, the session afterwards is the one before with that URI
    as its generated image and the in-flight flag false; nothing else
    changes, and no alert is raised. *)
Theorem successful_image_generation_sets_the_image :
  forall state editInstruction w imageUrl,
    ToBoolean (data state) = true ->
    fst (generateLifestyleImage_of (selectedImage state) (data state)
           editInstruction w) = Returns imageUrl ->
    updates (handleGenerateImage state editInstruction w)
    = [set_generating true; set_image imageUrl]
    /\ (forall s,
           fst (run (handleGenerateImage state editInstruction w) s)
           = mkState (status s) (data s) (error s) (selectedImage s)
               (imagePreviewUrl s) (App.textInput s) false (Some imageUrl))
    /\ (forall message,
           ~ In (Alert message) (events (handleGenerateImage state editInstruction w))).
Proof.
  intros state editInstruction w imageUrl Hdata Hok.
  unfold handleGenerateImage. rewrite Hdata. cbn [negb].
  destruct (generateLifestyleImage_of _ _ _ _) as [r t].
  cbn [fst] in Hok. subst r. split; [|split].
  - change (updates (SetState (set_generating true) :: ?l))
      with (set_generating true :: updates l).
    now rewrite updates_service_events.
  - intros s. cbn [run]. rewrite run_service_events. reflexivity.
  - intros message. unfold events. cbn [flat_map app].
    rewrite flat_map_app. cbn [flat_map app]. rewrite app_nil_r.
    intros Hin. apply in_flat_map in Hin. destruct Hin as (st & Hst & Hin).
    apply in_map_iff in Hst. destruct Hst as (e & <- & _).
    cbn in Hin. destruct Hin as [Hin | []]. discriminate Hin.
Qed.

Lemma successful_image_generation_sets_the_image_witness :
  updates (handleGenerateImage showing_listing (lit "make it red") image_world)
  = [set_generating true; set_image (lit "data:image/jpeg;base64,/9j/4AAQ")]
  /\ (forall s,
         fst (run (handleGenerateImage showing_listing (lit "make it red")
                     image_world) s)
         = mkState (status s) (data s) (error s) (selectedImage s)
             (imagePreviewUrl s) (App.textInput s) false
             (Some (lit "data:image/jpeg;base64,/9j/4AAQ")))
  /\ (forall message,
         ~ In (Alert message)
             (events (handleGenerateImage showing_listing (lit "make it red")
                        image_world))).
Proof.
  apply (successful_image_generation_sets_the_image
           showing_listing (lit "make it red") image_world
           (lit "data:image/jpeg;base64,/9j/4AAQ")).
  - reflexivity.
  - vm_compute. reflexivity.
Defined.

(** X9: [resetApp] turns any session into the initial one; from there
    the form refuses to generate and the image flow does nothing at all,
    in any world. *)
Theorem reset_session_is_inert :
  forall s w editInstruction,
    fst (run resetApp s) = mkState IDLE JNull None None None [] false None
    /\ nothing_entered (fst (run resetApp s)) = true
    /\ service_calls (handleGenerate (fst (run resetApp s)) w) = 0
    /\ handleGenerateImage (fst (run resetApp s)) editInstruction w = [].
Proof.
  intros s w editInstruction. repeat split.
Qed.

Lemma generateProductContent_unreadable :
  forall f textInput w,
    truthy_opt (API_KEY w) = true ->
    file_dataURL f = None ->
    generateProductContent (Some f) textInput w = (Throws ReadFailure, []).
Proof.
  intros f textInput w Hkey Hread.
  run_eff. unfold no_input. rewrite Hkey, Hread. reflexivity.
Qed.

Lemma generateLifestyleImage_unreadable :
  forall f productName description editInstruction w,
    truthy_opt (API_KEY w) = true ->
    file_dataURL f = None ->
    generateLifestyleImage (Some f) productName description editInstruction w
    = (Throws ReadFailure, []).
Proof.
  intros f productName description editInstruction w Hkey Hread.
  run_eff. rewrite Hkey, Hread. reflexivity.
Qed.

(** X10: with a key set and a selected image that cannot be read, nothing
    is sent by either flow.  [handleGenerate] ends in error with the
    fallback message, the reader's failure having no message of its own;
    [handleGenerateImage], for a listing whose name and description can be
    written as text, alerts with the text [undefined] in place of a message
    and resets the in-flight flag. *)
Theorem unreadable_image_in_the_session :
  forall state f w editInstruction s,
    truthy_opt (API_KEY w) = true ->
    selectedImage state = Some f ->
    file_dataURL f = None ->
    (service_calls (handleGenerate state w) = 0
     /\ status (fst (run (handleGenerate state w) s)) = ERROR
     /\ error (fst (run (handleGenerate state w) s))
        = Some (lit "Something went wrong. Please try again."))
    /\ (ToBoolean (data state) = true ->
        template_text (get (data state) (lit "productName")) <> None ->
        template_text (get (data state) (lit "shortDescription")) <> None ->
        service_calls (handleGenerateImage state editInstruction w) = 0
        /\ events (handleGenerateImage state editInstruction w)
           = [Alert (lit "Could not generate image: " ++ lit "undefined")]
        /\ fst (run (handleGenerateImage state editInstruction w) s)
           = mkState (status s) (data s) (error s) (selectedImage s)
               (imagePreviewUrl s) (App.textInput s) false
               (App.marketingImageUrl s)).
Proof.
  intros state f w editInstruction s Hkey Himg Hread. split.
  - unfold handleGenerate, nothing_entered. rewrite Himg. cbn [isSome negb andb].
    rewrite (generateProductContent_unreadable f (App.textInput state) w Hkey Hread).
    repeat split.
  - intros Hdata Hname Htext.
    unfold handleGenerateImage, generateLifestyleImage_of.
    rewrite Hdata, Himg. cbn [negb].
    destruct (template_text (get (data state) (lit "productName")));
      [|congruence].
    destruct (template_text (get (data state) (lit "shortDescription")));
      [|congruence].
    rewrite (generateLifestyleImage_unreadable f _ _ editInstruction w Hkey Hread).
    repeat split.
Qed.

Lemma unreadable_image_in_the_session_witness :
  (service_calls (handleGenerate session_with_unreadable_photo offline) = 0
   /\ status (fst (run (handleGenerate session_with_unreadable_photo offline)
                     session_with_unreadable_photo)) = ERROR
   /\ error (fst (run (handleGenerate session_with_unreadable_photo offline)
                    session_with_unreadable_photo))
      = Some (lit "Something went wrong. Please try again."))
  /\ (ToBoolean (data session_with_unreadable_photo) = true ->
      template_text (get (data session_with_unreadable_photo) (lit "productName"))
      <> None ->
      template_text (get (data session_with_unreadable_photo)
                       (lit "shortDescription")) <> None ->
      service_calls
        (handleGenerateImage session_with_unreadable_photo (lit "make it red")
           offline) = 0
      /\ events
           (handleGenerateImage session_with_unreadable_photo (lit "make it red")
              offline)
         = [Alert (lit "Could not generate image: " ++ lit "undefined")]
      /\ fst (run (handleGenerateImage session_with_unreadable_photo
                     (lit "make it red") offline) session_with_unreadable_photo)
         = mkState (status session_with_unreadable_photo)
             (data session_with_unreadable_photo)
             (error session_with_unreadable_photo)
             (selectedImage session_with_unreadable_photo)
             (imagePreviewUrl session_with_unreadable_photo)
             (App.textInput session_with_unreadable_photo) false
             (App.marketingImageUrl session_with_unreadable_photo)).
Proof.
  apply (unreadable_image_in_the_session
           session_with_unreadable_photo unreadable_photo offline
           (lit "make it red") session_with_unreadable_photo);
    reflexivity.
Defined.

(** The conversions on samples.  A number prints from its Number value,
    not from its literal, and is falsy once it rounds to zero; an object
    with a member [toString] of its own has no text. *)
Example conversion_samples :
  ToString (JNumber (lit "1.0")) = Some (lit "1")
  /\ ToString (JNumber (lit "1e3")) = Some (lit "1000")
  /\ ToString (JNumber (lit "1.50e1")) = Some (lit "15")
  /\ ToString (JNumber (lit "0.1")) = Some (lit "0.1")
  /\ ToString (JNumber (lit "-12.5E-1")) = Some (lit "-1.25")
  /\ ToString (JNumber (lit "1e21")) = Some (lit "1e+21")
  /\ ToString (JNumber (lit "123456789012345678901")) = Some (lit "123456789012345680000")
  /\ ToString (JNumber (lit "0.0000001")) = Some (lit "1e-7")
  /\ ToString (JNumber (lit "9007199254740993")) = Some (lit "9007199254740992")
  /\ ToString (JNumber (lit "1e400")) = Some (lit "Infinity")
  /\ ToString (JNumber (lit "-0")) = Some (lit "0")
  /\ ToString (JNumber (lit "1e-400")) = Some (lit "0")
  /\ ToBoolean (JNumber (lit "1e-400")) = false
  /\ ToBoolean (JNumber (lit "5e-324")) = true
  /\ ToBoolean (JNumber (lit "-0.0")) = false
  /\ ToString (JArray [JNull; JNumber (lit "2.50"); JArray [JBool true; JNull]])
     = Some (lit ",2.5,true,")
  /\ ToString (JObject [(lit "valueOf", JNumber (lit "1"))])
     = Some (lit "[object Object]")
  /\ ToString (JObject [(lit "toString", JNumber (lit "1"))]) = None
  /\ ToString (JArray [JObject [(lit "toString", JNull)]]) = None
  /\ JSON.parse odd_body = Some odd_listing.
Proof. vm_compute. repeat split. Qed.

(** X11: a listing whose name or short description cannot be written as
    text never reaches the service.  The image flow, once entered, sends
    nothing; it raises one alert, with the missing-key message where no key
    is set and with the engine's message for the failed conversion where
    one is, the name being converted first; and it leaves the session as
    it was, the in-flight flag false. *)
Theorem listing_without_text_never_reaches_the_service :
  forall state editInstruction w,
    ToBoolean (data state) = true ->
    template_text (get (data state) (lit "productName")) = None
    \/ template_text (get (data state) (lit "shortDescription")) = None ->
    service_calls (handleGenerateImage state editInstruction w) = 0
    /\ updates (handleGenerateImage state editInstruction w)
       = [set_generating true; set_generating false]
    /\ (forall s,
           fst (run (handleGenerateImage state editInstruction w) s)
           = mkState (status s) (data s) (error s) (selectedImage s)
               (imagePreviewUrl s) (App.textInput s) false
               (App.marketingImageUrl s))
    /\ events (handleGenerateImage state editInstruction w)
       = [Alert
            (lit "Could not generate image: "
             ++ (if truthy_opt (API_KEY w)
                 then
                   match template_text (get (data state) (lit "productName")) with
                   | None =>
                       type_message w (lit "productName")
                         (match get (data state) (lit "productName") with
                          | Some v => v
                          | None => JNull
                          end)
                   | Some _ =>
                       type_message w (lit "description")
                         (match get (data state) (lit "shortDescription") with
                          | Some v => v
                          | None => JNull
                          end)
                   end
                 else lit "API Key is missing."))].
Proof.
  intros state editInstruction w Hdata Hnone.
  unfold handleGenerateImage, generateLifestyleImage_of.
  rewrite Hdata. cbn [negb].
  unfold bind, process_env_API_KEY, throw, type_error.
  destruct (template_text (get (data state) (lit "productName"))) as [name|];
    [destruct Hnone as [Hnone | Hnone]; [discriminate | rewrite Hnone]|].
  all: destruct (truthy_opt (API_KEY w)); cbn; repeat split.
Qed.

Lemma listing_without_text_never_reaches_the_service_witness :
  service_calls (handleGenerateImage showing_odd_listing (lit "make it red") image_world)
  = 0
  /\ updates (handleGenerateImage showing_odd_listing (lit "make it red") image_world)
     = [set_generating true; set_generating false]
  /\ (forall s,
         fst (run (handleGenerateImage showing_odd_listing (lit "make it red")
                     image_world) s)
         = mkState (status s) (data s) (error s) (selectedImage s)
             (imagePreviewUrl s) (App.textInput s) false
             (App.marketingImageUrl s))
  /\ events (handleGenerateImage showing_odd_listing (lit "make it red") image_world)
     = [Alert
          (lit "Could not generate image: "
           ++ (if truthy_opt (API_KEY image_world)
               then
                 match template_text (get (data showing_odd_listing)
                                        (lit "productName")) with
                 | None =>
                     type_message image_world (lit "productName")
                       (match get (data showing_odd_listing) (lit "productName") with
                        | Some v => v
                        | None => JNull
                        end)
                 | Some _ =>
                     type_message image_world (lit "description")
                       (match get (data showing_odd_listing)
                                (lit "shortDescription") with
                        | Some v => v
                        | None => JNull
                        end)
                 end
               else lit "API Key is missing."))].
Proof.
  apply (listing_without_text_never_reaches_the_service
           showing_odd_listing (lit "make it red") image_world).
  - reflexivity.
  - left. vm_compute. reflexivity.
Defined.

(** The same on the sample: the alert carries the engine's message. *)
Example odd_listing_sample :
  events (handleGenerateImage showing_odd_listing (lit "make it red") image_world)
  = [Alert (lit "Could not generate image: Cannot convert object to primitive value")]
  /\ events (handleGenerateImage showing_odd_listing (lit "make it red")
               no_credential)
     = [Alert (lit "Could not generate image: API Key is missing.")].
Proof. vm_compute. split; reflexivity. Qed.

End ImageFlow.

Section FileSelection.
Import Samples MoreSamples App AppControls FileUpload.

(** X12: a drop always ends the dragging state and selects at most the
    first file, and only when its declared type starts with [image/]:
    files after the first are never looked at.  The file dialog selects
    the first file whatever its type.  A selected file becomes the
    session's image with its preview, clears the error, changes nothing
    else, and is enough for the form to let a generation through. *)
Theorem dropped_file_is_selected_when_first_and_image :
  forall createObjectURL files s,
    dragging (handleDrop files) = Some false
    /\ (forall f,
           selected (handleDrop files) = Some f
           <-> exists rest,
               files = f :: rest
               /\ startsWith (lit "image/") (file_type f) = true)
    /\ (forall f,
           selected (handleFileChange files) = Some f
           <-> exists rest, files = f :: rest)
    /\ (forall f,
           selected (handleDrop files) = Some f ->
           fst (run (onFileSelect createObjectURL (handleDrop files)) s)
           = mkState (status s) (data s) None (Some f) (Some (createObjectURL f))
               (textInput s) (isGeneratingImage s) (marketingImageUrl s)
           /\ nothing_entered
                (fst (run (onFileSelect createObjectURL (handleDrop files)) s))
              = false)
    /\ (selected (handleDrop files) = None ->
        onFileSelect createObjectURL (handleDrop files) = []).
Proof.
  intros createObjectURL files s. unfold handleDrop, handleFileChange, onFileSelect.
  cbn [dragging selected]. split; [reflexivity|].
  destruct files as [|file rest].
  - refine (conj _ (conj _ (conj _ _))).
    + intros f. split; [discriminate | intros (rest & H & _); discriminate].
    + intros f. split; [discriminate | intros (rest & H); discriminate].
    + discriminate.
    + reflexivity.
  - destruct (startsWith (lit "image/") (file_type file)) eqn:Htype;
      refine (conj _ (conj _ (conj _ _))).
    + intros f. split.
      * intros H. injection H as <-. now exists rest.
      * intros (rest' & H & _). now injection H as <- _.
    + intros f. split.
      * intros H. injection H as <-. now exists rest.
      * intros (rest' & H). now injection H as <- _.
    + intros f H. injection H as <-. split; reflexivity.
    + discriminate.
    + intros f. split; [discriminate|].
      intros (rest' & H & Hf). injection H as <- _. congruence.
    + intros f. split.
      * intros H. injection H as <-. now exists rest.
      * intros (rest' & H). now injection H as <- _.
    + discriminate.
    + reflexivity.
Qed.

(** A manual dropped before a photo selects nothing; the photo alone is
    selected. *)
Example drop_samples :
  selected (handleDrop [manual; photo]) = None
  /\ selected (handleDrop [photo; manual]) = Some photo
  /\ selected (handleFileChange [manual; photo]) = Some manual.
Proof. vm_compute. repeat split. Qed.

End FileSelection.

Section EditFlow.
Import Samples MoreSamples App ResultCardControls.

(** The one text part of a request of image generation. *)
Lemma lifestyle_request_texts :
  forall originalImage productName description editInstruction w r t ai req,
    generateLifestyleImage originalImage productName description editInstruction w
    = (r, t) ->
    In (Sent ai req) t ->
    request_texts req
    = [lifestyle_prompt productName description
       ++ (if truthy editInstruction then edit_directive editInstruction else [])
       ++ (if isSome originalImage then preserve_directive else [])].
Proof.
  intros originalImage productName description editInstruction w r t ai req H Hin.
  run_in H.
  all: injection H as <- <-; find_sent; unfold request_texts;
    cbn [contents flat_map part_text app fst snd isSome].
  all: rewrite ?app_nil_r, <- ?app_assoc; reflexivity.
Qed.

(** The requests among the steps of the image flow are those of the
    operation, called with the name and the description of the listing
    written as text. *)
Lemma sent_requests_of_image_flow :
  forall state editInstruction w req,
    In req (sent_requests (handleGenerateImage state editInstruction w)) ->
    exists ai name text,
      template_text (get (data state) (lit "productName")) = Some name
      /\ template_text (get (data state) (lit "shortDescription")) = Some text
      /\ In (Sent ai req)
           (snd (generateLifestyleImage (selectedImage state) name text
                   editInstruction w)).
Proof.
  intros state editInstruction w req Hin. unfold handleGenerateImage in Hin.
  destruct (ToBoolean (data state)); cbn [negb] in Hin; [|destruct Hin].
  unfold generateLifestyleImage_of in Hin.
  destruct (template_text (get (data state) (lit "productName"))) as [name|].
  - destruct (template_text (get (data state) (lit "shortDescription")))
      as [text|].
    + destruct (generateLifestyleImage _ _ _ _ _) as [r t] eqn:Hrun.
      unfold sent_requests in Hin. cbn [flat_map app] in Hin.
      rewrite flat_map_app in Hin. apply in_app_or in Hin.
      destruct Hin as [Hin | Hin].
      * apply in_flat_map in Hin. destruct Hin as (st & Hst & Hin).
        apply in_map_iff in Hst. destruct Hst as (e & <- & He).
        destruct e as [ai q | label err]; cbn in Hin; [|destruct Hin].
        destruct Hin as [<- | []]. exists ai, name, text. now rewrite Hrun.
      * destruct r; cbn in Hin; destruct Hin.
    + exfalso. unfold bind, process_env_API_KEY, throw, type_error in Hin.
      destruct (negb (truthy_opt (API_KEY w))); cbn in Hin; destruct Hin.
  - exfalso. unfold bind, process_env_API_KEY, throw, type_error in Hin.
    destruct (negb (truthy_opt (API_KEY w))); cbn in Hin; destruct Hin.
Qed.



(** X14: the "Generate AI Photo" button asks for an image with no edit
    directive: every request it sends has one text, the lifestyle prompt
    for the listing's name and short description, followed by the
    sentence on preserving the product only when an image is selected. *)
Theorem generate_button_sends_the_plain_prompt :
  forall state w req,
    In req (sent_requests
              (generate_click
                 (fun instruction => handleGenerateImage state instruction w))) ->
    exists name text,
      template_text (get (data state) (lit "productName")) = Some name
      /\ template_text (get (data state) (lit "shortDescription")) = Some text
      /\ request_texts req
         = [lit "Create a high-quality, professional Instagram lifestyle photography shot for the product "
            ++ dquote ++ name ++ dquote ++ lit ". " ++ [10%N]
            ++ lit "  Context/Description: " ++ text ++ lit ". " ++ [10%N]
            ++ lit "  The image should be aesthetically pleasing, bright, and suitable for social media marketing. "
            ++ [10%N]
            ++ lit "  Aspect Ratio 1:1."
            ++ (if isSome (selectedImage state)
                then lit " preserve the key visual details of the product in the input image but place it in a better background/setting."
                else [])].
Proof.
  intros state w req Hin. unfold generate_click in Hin.
  apply sent_requests_of_image_flow in Hin.
  destruct Hin as (ai & name & text & Hname & Htext & Hin).
  exists name, text. split; [exact Hname|]. split; [exact Htext|].
  destruct (generateLifestyleImage _ _ _ _ _) as [r t] eqn:Hrun.
  cbn [snd] in Hin.
  rewrite (lifestyle_request_texts _ _ _ _ _ _ _ _ _ Hrun Hin).
  rewrite lifestyle_prompt_text, preserve_directive_text.
  cbn [truthy]. repeat rewrite <- app_assoc. reflexivity.
Qed.

Lemma generate_button_sends_the_plain_prompt_witness :
  exists name text,
    template_text (get (data showing_listing) (lit "productName")) = Some name
    /\ template_text (get (data showing_listing) (lit "shortDescription"))
       = Some text
    /\ request_texts
         (mkRequest image_model
            [mkPart (Some (lifestyle_prompt (lit "Blue Kaftan") (lit "Hand-made.")))
               None]
            image_config)
       = [lit "Create a high-quality, professional Instagram lifestyle photography shot for the product "
          ++ dquote ++ name ++ dquote ++ lit ". " ++ [10%N]
          ++ lit "  Context/Description: " ++ text ++ lit ". " ++ [10%N]
          ++ lit "  The image should be aesthetically pleasing, bright, and suitable for social media marketing. "
          ++ [10%N]
          ++ lit "  Aspect Ratio 1:1."
          ++ (if isSome (selectedImage showing_listing)
              then lit " preserve the key visual details of the product in the input image but place it in a better background/setting."
              else [])].
Proof.
  apply (generate_button_sends_the_plain_prompt showing_listing image_world).
  vm_compute. left. reflexivity.
Defined.

End EditFlow.

(* ================================================================== *)
(** * More on the result card *)
(* ================================================================== *)

Section PriceField.
Import Samples MoreSamples ResultCard ResultCardControls.

Lemma price_field_value_idempotent :
  forall s, price_field_value (price_field_value s) = price_field_value s.
Proof.
  intros s. unfold price_field_value. induction s as [|c s IH]; [reflexivity|].
  cbn. destruct (price_char c) eqn:Hc; [|exact IH].
  cbn. rewrite Hc. now rewrite IH.
Qed.

Lemma price_field_value_id :
  forall s, forallb price_char s = true -> price_field_value s = s.
Proof.
  intros s. unfold price_field_value. induction s as [|c s IH]; [reflexivity|].
  cbn. destruct (price_char c); cbn; [|discriminate].
  intros H. now rewrite IH.
Qed.

(** X15: typing [value] in the price field stores the Naira sign followed
    by [value] as typed and leaves the rest of the card alone.  The field
    shows the stored price without anything but digits, dots and commas:
    that is [value] itself when it holds nothing else, the sign is never
    shown, and storing again what the field shows does not change what it
    shows. *)
Theorem price_field_round_trip :
  forall value c,
    customPrice (price_onChange value c) = 8358%N :: value
    /\ productName (price_onChange value c) = productName c
    /\ marketingImageUrl (price_onChange value c) = marketingImageUrl c
    /\ businessName (price_onChange value c) = businessName c
    /\ logoUrl (price_onChange value c) = logoUrl c
    /\ forallb price_char (price_field_value (customPrice (price_onChange value c)))
       = true
    /\ price_field_value (customPrice (price_onChange value c))
       = price_field_value value
    /\ (forallb price_char value = true ->
        price_field_value (customPrice (price_onChange value c)) = value)
    /\ price_field_value
         (customPrice
            (price_onChange
               (price_field_value (customPrice (price_onChange value c))) c))
       = price_field_value (customPrice (price_onChange value c)).
Proof.
  intros value c.
  assert (Hshown : price_field_value (naira ++ value) = price_field_value value)
    by reflexivity.
  cbn [price_onChange setCustomPrice customPrice productName marketingImageUrl
         businessName logoUrl].
  do 5 (split; [reflexivity|]).
  split; [|split; [exact Hshown | split]].
  - unfold price_field_value. apply forallb_forall. intros x Hx.
    now apply filter_In in Hx.
  - intros Hvalue. rewrite Hshown. now apply price_field_value_id.
  - rewrite !Hshown. apply price_field_value_idempotent.
Qed.

(** The suggested range shows as its digits and commas run together; a
    price typed with letters is stored with them. *)
Example price_field_samples :
  price_field_value (naira ++ lit "15,000 - " ++ naira ++ lit "20,000")
  = lit "15,00020,000"
  /\ customPrice (price_onChange (lit "5k") (plain_card "0")) = naira ++ lit "5k"
  /\ price_field_value (naira ++ lit "5k") = lit "5".
Proof. vm_compute. repeat split. Qed.

End PriceField.

Section DownloadName.
Import Samples MoreSamples ResultCard ResultCardControls.

Lemma hyphen_is_no_space : isWhiteSpace 45%N = false.
Proof. reflexivity. Qed.

Lemma replace_ws_runs_no_space :
  forall s in_run,
    forallb (fun c => negb (isWhiteSpace c)) (replace_ws_runs in_run s) = true.
Proof.
  induction s as [|c s IH]; intros in_run; [reflexivity|].
  cbn [replace_ws_runs]. destruct (isWhiteSpace c) eqn:Hc.
  - destruct in_run; [apply IH|]. cbn [forallb]. rewrite hyphen_is_no_space.
    cbn. apply IH.
  - cbn [forallb]. rewrite Hc. cbn. apply IH.
Qed.

Lemma replace_ws_runs_id :
  forall s in_run,
    forallb (fun c => negb (isWhiteSpace c)) s = true ->
    replace_ws_runs in_run s = s.
Proof.
  induction s as [|c s IH]; intros in_run H; [reflexivity|].
  cbn in H. apply andb_true_iff in H. destruct H as [Hc Hs].
  apply negb_true_iff in Hc. cbn [replace_ws_runs]. rewrite Hc.
  now rewrite IH.
Qed.

Lemma replace_ws_runs_length :
  forall s in_run,
    List.length (replace_ws_runs in_run s) <= List.length s.
Proof.
  induction s as [|c s IH]; intros in_run; [cbn; lia|].
  cbn [replace_ws_runs]. destruct (isWhiteSpace c).
  - destruct in_run; cbn [List.length]; [specialize (IH true) | specialize (IH true)]; lia.
  - cbn [List.length]. specialize (IH false). lia.
Qed.

(** In the result a hyphen that stands for white space is never followed
    by another one: a run is replaced as a whole. *)
Lemma replace_ws_runs_app :
  forall s1 s2,
    forallb (fun c => negb (isWhiteSpace c)) s1 = true ->
    replace_ws_runs false (s1 ++ s2) = s1 ++ replace_ws_runs false s2.
Proof.
  induction s1 as [|c s1 IH]; intros s2 H; [reflexivity|].
  cbn in H. apply andb_true_iff in H. destruct H as [Hc Hs].
  apply negb_true_iff in Hc. cbn [app replace_ws_runs]. rewrite Hc.
  now rewrite IH.
Qed.

Lemma replace_ws_runs_run :
  forall run s c,
    run <> [] ->
    forallb isWhiteSpace run = true ->
    isWhiteSpace c = false ->
    replace_ws_runs false (run ++ c :: s) = 45%N :: c :: replace_ws_runs false s.
Proof.
  intros run s c Hne Hrun Hc.
  assert (Hin : forall r, forallb isWhiteSpace r = true ->
                          replace_ws_runs true (r ++ c :: s)
                          = c :: replace_ws_runs false s).
  { induction r as [|x r IH]; intros Hr; cbn [app replace_ws_runs].
    - now rewrite Hc.
    - cbn in Hr. apply andb_true_iff in Hr. destruct Hr as [Hx Hr].
      rewrite Hx. now apply IH. }
  destruct run as [|x run]; [congruence|].
  cbn in Hrun. apply andb_true_iff in Hrun. destruct Hrun as [Hx Hrun].
  cbn [app replace_ws_runs]. rewrite Hx. now rewrite Hin.
Qed.

(** X16: every file name offered for download is [merchant-ai-], the
    lower-cased stem, [.png], where the stem is the product name with each
    run of white space replaced as a whole by one hyphen: it holds no white
    space, is no longer than the name, and is the name itself when the
    name has no white space. *)
Theorem download_name_has_no_white_space :
  forall b c name,
    In name (download_names (handleDownload b c)) ->
    exists stem,
      name = lit "merchant-ai-" ++ toLowerCase b stem ++ lit ".png"
      /\ stem = replace_ws_runs false (productName c)
      /\ forallb (fun u => negb (isWhiteSpace u)) stem = true
      /\ List.length stem <= List.length (productName c)
      /\ (forallb (fun u => negb (isWhiteSpace u)) (productName c) = true ->
          stem = productName c)
      /\ (forall before run u after,
             productName c = before ++ run ++ u :: after ->
             forallb (fun x => negb (isWhiteSpace x)) before = true ->
             run <> [] ->
             forallb isWhiteSpace run = true ->
             isWhiteSpace u = false ->
             stem = before ++ 45%N :: u :: replace_ws_runs false after).
Proof.
  intros b c name Hin.
  assert (Hname : name = download_name b (productName c)).
  { unfold handleDownload in Hin.
    destruct (marketingImageUrl c) as [[|u src]|]; try destruct Hin.
    destruct (load_image b (u :: src)) as [[W H]|]; [|destruct Hin].
    unfold onload, download_names in Hin.
    destruct (context2d b); cbn [negb] in Hin; [|destruct Hin].
    assert (Hlogo : forall x y url,
               flat_map (fun op => match op with download n => [n] | _ => [] end)
                 (fst (draw_logo b W url x y)) = []).
    { intros x y url. unfold draw_logo.
      destruct (load_image b url) as [[lw lh]|];
        destruct (gtb _ _); try destruct (broken_image_throws b); reflexivity. }
    assert (Htag : forall price,
               flat_map (fun op => match op with download n => [n] | _ => [] end)
                 (draw_price_tag b W H price) = []).
    { intros price. unfold draw_price_tag. now destruct (has_roundRect b). }
    destruct (logoUrl c) as [[|lu lurl]|].
    2: specialize (Hlogo (mul (num 40) (div (of_N W) (num 1000)))
                     (mul (num 40) (div (of_N W) (num 1000))) (lu :: lurl));
       destruct (draw_logo _ _ _ _ _) as [logo_ops [y|]]; cbn [fst] in Hlogo.
    all: cbn [app flat_map] in Hin;
      rewrite ?flat_map_app, ?Hlogo, ?Htag in Hin;
      try destruct (truthy (businessName c));
      cbn in Hin; intuition. }
  subst name. exists (replace_ws_runs false (productName c)).
  split; [reflexivity|]. split; [reflexivity|].
  split; [apply replace_ws_runs_no_space|].
  split; [apply replace_ws_runs_length|].
  split; [apply replace_ws_runs_id|].
  intros before run u after Hname Hbefore Hne Hrun Hu.
  rewrite Hname. rewrite replace_ws_runs_app by assumption.
  now rewrite replace_ws_runs_run.
Qed.

Lemma download_name_has_no_white_space_witness :
  exists stem,
    lit "merchant-ai-" ++ toLowerCase (browser false) (lit "Blue-Kaftan-XL")
    ++ lit ".png"
    = lit "merchant-ai-" ++ toLowerCase (browser false) stem ++ lit ".png"
    /\ stem = replace_ws_runs false (productName branded_card)
    /\ forallb (fun u => negb (isWhiteSpace u)) stem = true
    /\ List.length stem <= List.length (productName branded_card)
    /\ (forallb (fun u => negb (isWhiteSpace u)) (productName branded_card) = true ->
        stem = productName branded_card)
    /\ (forall before run u after,
           productName branded_card = before ++ run ++ u :: after ->
           forallb (fun x => negb (isWhiteSpace x)) before = true ->
           run <> [] ->
           forallb isWhiteSpace run = true ->
           isWhiteSpace u = false ->
           stem = before ++ 45%N :: u :: replace_ws_runs false after).
Proof.
  apply (download_name_has_no_white_space (browser false) branded_card).
  vm_compute. left. reflexivity.
Defined.

End DownloadName.

Section Composition.
Import Samples MoreSamples ResultCard ResultCardControls.















End Composition.

Section LogoBox.
Import Samples MoreSamples ResultCard ResultCardControls.

(** A logo taller than the box: scaled to the height of the box, it is no
    wider than the box. *)
Lemma fits_tall :
  forall (s : Q) (lw lh : positive),
    (0 <= s)%Q ->
    Qle_bool (s / (inject_Z (Zpos lw) / inject_Z (Zpos lh)))%Q s = false ->
    Qle_bool (s * (inject_Z (Zpos lw) / inject_Z (Zpos lh)))%Q s = true.
Proof.
  intros [sn sd] lw lh Hs Hgt.
  apply Qle_bool_iff.
  assert (Hn : ~ ((sn # sd) / (inject_Z (Zpos lw) / inject_Z (Zpos lh))
                  <= (sn # sd))%Q).
  { intros H. apply Qle_bool_iff in H. congruence. }
  clear Hgt.
  unfold Qle, Qdiv, Qmult, Qinv, inject_Z in *. cbn in *.
  nia.
Qed.

(** X18: a logo that loads with a width and a height other than zero is
    drawn at the branding corner, under its shadow, inside a square of side
    [120 * W / 1000]: neither its drawn width nor its drawn height exceeds
    the side, and one of them is the side.  The text that follows starts
    [20 * W / 1000] below the drawn logo. *)
Theorem loaded_logo_fits_its_box :
  forall b W url x y lw lh,
    load_image b url = Some (Npos lw, Npos lh) ->
    exists dw dh,
      draw_logo b W url x y
      = ([set_shadowColor (lit "rgba(0,0,0,0.5)");
          set_shadowBlur (mul (num 10) (div (of_N W) (num 1000)));
          drawImage_scaled url x y dw dh],
         Some (add y (add dh (mul (num 20) (div (of_N W) (num 1000))))))
      /\ le dw (mul (num 120) (div (of_N W) (num 1000)))
      /\ le dh (mul (num 120) (div (of_N W) (num 1000)))
      /\ (dw = mul (num 120) (div (of_N W) (num 1000))
          \/ dh = mul (num 120) (div (of_N W) (num 1000))).
Proof.
  intros b W url x y lw lh Hload.
  unfold draw_logo. rewrite Hload.
  set (s := (inject_Z 120 * (inject_Z (Z.of_N W) / inject_Z 1000))%Q).
  set (r := (inject_Z (Zpos lw) / inject_Z (Zpos lh))%Q).
  change (mul (num 120) (div (of_N W) (num 1000))) with (Fin s).
  change (div (of_N (Npos lw)) (of_N (Npos lh))) with (Fin r).
  change (div (Fin s) (Fin r)) with (Fin (s / r)).
  change (mul (Fin s) (Fin r)) with (Fin (s * r)).
  assert (Hs : (0 <= s)%Q).
  { unfold s. destruct W as [|p]; unfold Qle; cbn; lia. }
  unfold gtb, le, leb.
  destruct (Qle_bool (s / r) s) eqn:Hfit; cbn [negb].
  - exists (Fin s), (Fin (s / r)). split; [reflexivity|].
    split; [apply Qle_bool_iff, Qle_refl|]. split; [exact Hfit|]. now left.
  - exists (Fin (s * r)), (Fin s). split; [reflexivity|].
    split; [now apply fits_tall|]. split; [apply Qle_bool_iff, Qle_refl|].
    now right.
Qed.

Lemma loaded_logo_fits_its_box_witness :
  exists dw dh,
    draw_logo (browser false) 1000 (lit "logo.png") (num 40) (num 40)
    = ([set_shadowColor (lit "rgba(0,0,0,0.5)");
        set_shadowBlur (mul (num 10) (div (of_N 1000) (num 1000)));
        drawImage_scaled (lit "logo.png") (num 40) (num 40) dw dh],
       Some (add (num 40) (add dh (mul (num 20) (div (of_N 1000) (num 1000))))))
    /\ le dw (mul (num 120) (div (of_N 1000) (num 1000)))
    /\ le dh (mul (num 120) (div (of_N 1000) (num 1000)))
    /\ (dw = mul (num 120) (div (of_N 1000) (num 1000))
        \/ dh = mul (num 120) (div (of_N 1000) (num 1000))).
Proof.
  apply (loaded_logo_fits_its_box (browser false) 1000%N (lit "logo.png")
           (num 40) (num 40) 200%positive 400%positive).
  vm_compute. reflexivity.
Defined.

(** The sample logo, 200 x 400, on an image 1000 wide: drawn 60 x 120. *)
Example logo_box_sample :
  exists dw dh,
    In (drawImage_scaled (lit "logo.png") (num 40) (num 40) dw dh)
      (fst (draw_logo (browser false) 1000 (lit "logo.png") (num 40) (num 40)))
    /\ same dw (num 60) /\ same dh (num 120).
Proof.
  do 2 eexists. split; [right; right; left; reflexivity|].
  vm_compute. repeat split.
Qed.

End LogoBox.

Section PriceTag.
Import Samples MoreSamples ResultCard ResultCardControls.




(** On the sample, an image 1000 x 800 and a price 50 wide: the font is 50,
    the rectangle 110 x 95 at (840, 680), the text anchored at (920, 760). *)
Example price_tag_sample :
  exists px py pw ph,
    rectangles (draw_price_tag (browser false) 1000 800 (lit "5,000"))
    = [(px, py, pw, ph)]
    /\ same px (num 840) /\ same py (num 680)
    /\ same pw (num 110) /\ same ph (num 95).
Proof.
  do 4 eexists. split; [reflexivity|]. vm_compute. repeat split.
Qed.

End PriceTag.
